(** * The billing circuit breaker (scripts/openai_circuit_breaker_mcp.py)

    A shallow embedding of the breaker service: the usage oracle
    [fetch_usage], the aggregator [check_recent_costs] and the accept
    loop of [main], together with the pieces of the Python runtime they
    call (UTF-8 decoding, [str.strip], [str.upper], [int]).

    Python integers are unbounded, so amounts are [Z].  A [bytes] object
    is a [list byte]; a [str] is the list of its code points.  Exceptions
    are values of [exn] carried by [result]; the code that touches the
    clock, the network or the upstream service threads a world through a
    state-and-error monad. *)

From Stdlib Require Import ZArith NArith List Bool Lia String Ascii.
From Stdlib Require Import QArith Qround SpecFloat.
From Stdlib Require Import Strings.Byte.
Import ListNotations.

Set Warnings "-register-all".
Local Open Scope Z_scope.

(** ** Exceptions and results *)

(** The subclasses of [Exception] that the program and the runtime
    functions it calls can raise.  [Exception msg] is a bare
    [raise Exception(msg)], as the test suite's failing oracle does. *)
Inductive exn : Type :=
| OSError
| JSONDecodeError
| AttributeError
| TypeError
| ValueError
| OverflowError
| UnicodeDecodeError
| UnicodeEncodeError
| Exception (msg : string).

Inductive result (A : Type) : Type :=
| Ok (a : A)
| Raise (e : exn).

Arguments Ok {A} a.
Arguments Raise {A} e.

Definition rbind {A B} (r : result A) (k : A -> result B) : result B :=
  match r with
  | Ok a => k a
  | Raise e => Raise e
  end.

(** [try: body / except Exception: handler]. *)
Definition try_except {A} (body : result A) (handler : exn -> result A)
  : result A :=
  match body with
  | Ok a => Ok a
  | Raise e => handler e
  end.

Declare Scope result_scope.
Delimit Scope result_scope with result.
Notation "x <- c ;; k" := (rbind c (fun x => k))
  (at level 61, c at next level, right associativity) : result_scope.

(** ** Text: [bytes], [str] and the methods the handler calls *)

Module PyText.

Local Open Scope N_scope.

Definition bytes := list byte.

(** A [str] is its sequence of Unicode code points. *)
Definition str := list N.

(** A literal of the source, written in ASCII. *)
Definition lit (s : string) : str :=
  map N_of_ascii (list_ascii_of_string s).

Fixpoint str_eqb (a b : str) : bool :=
  match a, b with
  | [], [] => true
  | x :: a', y :: b' => (x =? y) && str_eqb a' b'
  | _, _ => false
  end.

(** The parts of the interpreter's Unicode database and settings that the
    program reaches and that are no code of this repository: the full
    upper-case mapping and the decimal-digit property of the code points
    above ASCII, and [sys.get_int_max_str_digits()] (0 switches the limit
    off). *)
Class Runtime : Type := {
  unicode_upper : N -> list N;
  unicode_decimal : N -> option N;
  int_max_str_digits : N
}.

Definition between (lo hi c : N) : bool := (lo <=? c) && (c <=? hi).

(** [str.isspace] of one code point, the test [str.strip()] applies. *)
Definition is_whitespace (c : N) : bool :=
  between 9 13 c || between 28 32 c || (c =? 133) || (c =? 160)
  || (c =? 5760) || between 8192 8202 c || (c =? 8232) || (c =? 8233)
  || (c =? 8239) || (c =? 8287) || (c =? 12288).

Fixpoint lstrip (s : str) : str :=
  match s with
  | [] => []
  | c :: r => if is_whitespace c then lstrip r else s
  end.

Definition rstrip (s : str) : str := rev (lstrip (rev s)).

(** [s.strip()]: whitespace removed at both ends. *)
Definition strip (s : str) : str := rstrip (lstrip s).

Section Upper.
Context {rt : Runtime}.

Definition upper_char (c : N) : list N :=
  if c <? 128
  then [if between 97 122 c then c - 32 else c]
  else unicode_upper c.

(** [s.upper()]: the full upper-case mapping, one code point at a time
    (a code point may map to several). *)
Definition upper (s : str) : str := flat_map upper_char s.
End Upper.

(** *** UTF-8 *)

Definition is_cont (b : N) : bool := between 128 191 b.

(** Payload of a continuation byte. *)
Definition low6 (b : N) : N := b - 128.

Definition b2n (b : byte) : N := Byte.to_N b.

(** [data.decode("utf-8")], errors="strict": overlong forms, surrogates,
    code points above U+10FFFF, stray continuation bytes and truncated
    sequences raise [UnicodeDecodeError]. *)
Fixpoint decode_utf8 (data : bytes) : result str :=
  match data with
  | [] => Ok []
  | x0 :: r0 =>
    let b0 := b2n x0 in
    if b0 <? 128 then
      rbind (decode_utf8 r0) (fun s => Ok (b0 :: s))
    else if between 194 223 b0 then
      match r0 with
      | x1 :: r1 =>
        let b1 := b2n x1 in
        if is_cont b1
        then rbind (decode_utf8 r1)
               (fun s => Ok (((b0 - 192) * 64 + low6 b1) :: s))
        else Raise UnicodeDecodeError
      | _ => Raise UnicodeDecodeError
      end
    else if between 224 239 b0 then
      match r0 with
      | x1 :: x2 :: r2 =>
        let b1 := b2n x1 in
        let b2 := b2n x2 in
        let second_ok :=
          if b0 =? 224 then between 160 191 b1
          else if b0 =? 237 then between 128 159 b1
          else is_cont b1 in
        if second_ok && is_cont b2
        then rbind (decode_utf8 r2)
               (fun s => Ok (((b0 - 224) * 4096 + low6 b1 * 64 + low6 b2) :: s))
        else Raise UnicodeDecodeError
      | _ => Raise UnicodeDecodeError
      end
    else if between 240 244 b0 then
      match r0 with
      | x1 :: x2 :: x3 :: r3 =>
        let b1 := b2n x1 in
        let b2 := b2n x2 in
        let b3 := b2n x3 in
        let second_ok :=
          if b0 =? 240 then between 144 191 b1
          else if b0 =? 244 then between 128 143 b1
          else is_cont b1 in
        if second_ok && is_cont b2 && is_cont b3
        then rbind (decode_utf8 r3)
               (fun s => Ok (((b0 - 240) * 262144 + low6 b1 * 4096
                              + low6 b2 * 64 + low6 b3) :: s))
        else Raise UnicodeDecodeError
      | _ => Raise UnicodeDecodeError
      end
    else Raise UnicodeDecodeError
  end.

Definition n2b (n : N) : byte :=
  match Byte.of_N n with
  | Some b => b
  | None => x00
  end.

Definition encode_char (c : N) : result bytes :=
  if c <? 128 then Ok [n2b c]
  else if c <? 2048 then
    Ok [n2b (192 + c / 64); n2b (128 + c mod 64)]
  else if c <? 65536 then
    if between 55296 57343 c then Raise UnicodeEncodeError
    else Ok [n2b (224 + c / 4096); n2b (128 + (c / 64) mod 64);
             n2b (128 + c mod 64)]
  else if c <? 1114112 then
    Ok [n2b (240 + c / 262144); n2b (128 + (c / 4096) mod 64);
        n2b (128 + (c / 64) mod 64); n2b (128 + c mod 64)]
  else Raise UnicodeEncodeError.

(** [s.encode("utf-8")]. *)
Fixpoint encode_utf8 (s : str) : result bytes :=
  match s with
  | [] => Ok []
  | c :: r =>
    rbind (encode_char c) (fun bs =>
    rbind (encode_utf8 r) (fun rest => Ok (bs ++ rest)))
  end.

(** A [b'...'] literal of ASCII characters, and the same followed by a
    newline. *)
Definition ascii_bytes (s : string) : bytes := list_byte_of_string s.

Definition line (s : string) : bytes := ascii_bytes s ++ [x0a].

(** [data.endswith(b'\n')]. *)
Definition endswith_nl (data : bytes) : bool :=
  match rev data with
  | x :: _ => b2n x =? 10
  | [] => false
  end.

End PyText.

(** ** Values: what [json.loads] returns, and [int] *)

Module PyValue.
Import PyText.

(** A parsed JSON document as the Python object [json.loads] builds.  A
    [dict] keeps one binding per key, in insertion order. *)
Inductive pyval : Type :=
| PyNone
| PyBool (b : bool)
| PyInt (z : Z)
| PyFloat (f : spec_float)
| PyStr (s : str)
| PyList (l : list pyval)
| PyDict (d : list (str * pyval)).

Fixpoint dict_lookup (d : list (str * pyval)) (key : str) : option pyval :=
  match d with
  | [] => None
  | (k, v) :: rest => if str_eqb k key then Some v else dict_lookup rest key
  end.

(** [obj.get(key, default)]: only a [dict] has the method. *)
Definition get (obj : pyval) (key : str) (default : pyval) : result pyval :=
  match obj with
  | PyDict d =>
    Ok (match dict_lookup d key with
        | Some v => v
        | None => default
        end)
  | _ => Raise AttributeError
  end.

(** [int(f)] of a float: truncation toward zero; NaN and the infinities
    raise. *)
Definition int_of_float (f : spec_float) : result Z :=
  match f with
  | S754_zero _ => Ok 0
  | S754_infinity _ => Raise OverflowError
  | S754_nan => Raise ValueError
  | S754_finite s m e =>
    let magnitude := Z.shiftl (Z.pos m) e in
    Ok (if s then - magnitude else magnitude)
  end.

Section IntOfStr.
Context {rt : Runtime}.
Local Open Scope N_scope.

(** Whitespace as the C parser of integer literals sees it. *)
Definition c_isspace (c : N) : bool := between 9 13 c || (c =? 32).

Definition is_digit (c : N) : bool := between 48 57 c.

(** The pass that rewrites a [str] for the C parser: ASCII is kept,
    other whitespace becomes a space, other decimal digits become ASCII
    digits, anything else is rejected. *)
Definition ascii_of (c : N) : option N :=
  if c <? 128 then Some c
  else if is_whitespace c then Some 32
  else option_map (fun d => 48 + d) (unicode_decimal c).

Fixpoint to_ascii (s : str) : option (list N) :=
  match s with
  | [] => Some []
  | c :: r =>
    match ascii_of c, to_ascii r with
    | Some a, Some r' => Some (a :: r')
    | _, _ => None
    end
  end.

Fixpoint skip_spaces (s : list N) : list N :=
  match s with
  | [] => []
  | c :: r => if c_isspace c then skip_spaces r else s
  end.

(** The scan over digits and underscores: at most one underscore between
    two digits, none at the end.  Yields the value, the number of digits
    and what follows. *)
Fixpoint scan_digits (s : list N) (prev : N) (acc : Z) (ndigits : N)
  : option (Z * N * list N) :=
  match s with
  | [] => if prev =? 95 then None else Some (acc, ndigits, [])
  | c :: r =>
    if is_digit c
    then scan_digits r c (acc * 10 + Z.of_N (c - 48))%Z (ndigits + 1)
    else if c =? 95
    then if prev =? 95 then None else scan_digits r c acc ndigits
    else if prev =? 95 then None else Some (acc, ndigits, s)
  end.

(** Above 640 digits a conversion is checked against the configured
    limit. *)
Definition too_many_digits (ndigits : N) : bool :=
  (640 <? ndigits) && (0 <? int_max_str_digits)
  && (int_max_str_digits <? ndigits).

(** An optional sign in front of the digits. *)
Definition split_sign (a : list N) : bool * list N :=
  match a with
  | c :: r =>
    if c =? 43 then (false, r)
    else if c =? 45 then (true, r)
    else (false, a)
  | [] => (false, a)
  end.

(** The digits, which may not start with an underscore and must be there,
    then whitespace up to the end. *)
Definition parse_unsigned (a : list N) : result Z :=
  match a with
  | [] => Raise ValueError
  | c :: _ =>
    if c =? 95 then Raise ValueError
    else
      match scan_digits a 0 0%Z 0 with
      | None => Raise ValueError
      | Some (v, ndigits, rest) =>
        if (ndigits =? 0) || too_many_digits ndigits
        then Raise ValueError
        else
          match skip_spaces rest with
          | [] => Ok v
          | _ :: _ => Raise ValueError
          end
      end
  end.

(** [int(s)] of a [str], base 10. *)
Definition int_of_str (s : str) : result Z :=
  match to_ascii s with
  | None => Raise ValueError
  | Some a =>
    let '(negative, digits) := split_sign (skip_spaces a) in
    rbind (parse_unsigned digits)
      (fun v => Ok (if negative : bool then (- v)%Z else v))
  end.

(** [int(x)]. *)
Definition int (x : pyval) : result Z :=
  match x with
  | PyInt z => Ok z
  | PyBool b => Ok (if b then 1 else 0)%Z
  | PyFloat f => int_of_float f
  | PyStr s => int_of_str s
  | PyNone | PyList _ | PyDict _ => Raise TypeError
  end.
End IntOfStr.

End PyValue.

(** ** The service *)

Module Breaker.
Import PyText PyValue.

Definition HOST : str := lit "0.0.0.0".
Definition PORT : Z := 5555.

(** An instant of [datetime.utcnow()], in microseconds since the epoch,
    and the calendar day [strftime("%Y-%m-%d")] prints, as a day number. *)
Definition instant := Z.
Definition date := Z.

Definition one_day : Z := 86400000000.

Definition date_of (t : instant) : date := t / one_day.

(** The outside of the process: the UTC clock and the billing endpoint.
    [upstream d] stands for lines 14 to 24 of [fetch_usage]: the key is
    read from the environment, [curl] is run on the one-day window [d],
    and its output goes through [json.loads]; any of that may raise. *)
Class Host (W : Type) : Type := {
  utcnow : W -> instant * W;
  upstream : date -> W -> result pyval * W
}.

(** Computations that thread the world and may raise. *)
Definition M (W A : Type) : Type := W -> result A * W.

Definition ret {W A} (a : A) : M W A := fun w => (Ok a, w).

Definition bind {W A B} (c : M W A) (k : A -> M W B) : M W B :=
  fun w =>
    match c w with
    | (Ok a, w') => k a w'
    | (Raise e, w') => (Raise e, w')
    end.

Definition lift {W A} (r : result A) : M W A := fun w => (r, w).

(** [try: c / except Exception: h]. *)
Definition catch {W A} (c : M W A) (h : exn -> M W A) : M W A :=
  fun w =>
    match c w with
    | (Ok a, w') => (Ok a, w')
    | (Raise e, w') => h e w'
    end.

Declare Scope breaker_scope.
Delimit Scope breaker_scope with breaker.
Notation "x <- c ;; k" := (bind c (fun x => k))
  (at level 61, c at next level, right associativity) : breaker_scope.

(** *** The client side of a connection *)

(** What one [conn.recv(1024)] does: it returns a chunk (the empty chunk
    is end of file) or raises.  When the script is used up the peer has
    closed, and [recv] returns [b'']. *)
Inductive recv_event : Type :=
| Recv (chunk : bytes)
| RecvError.

Record connection : Type := {
  arriving : list recv_event;
  (** whether [sendall] gets the reply through *)
  writable : bool
}.

(** What one [s.accept()] does. *)
Inductive accept_event : Type :=
| Accepted (c : connection)
| AcceptError.

(** How a run of [main] ends: the script of clients is used up and the
    loop blocks in [accept], or an exception leaves [main]. *)
Inductive final : Type :=
| Listening
| Died (e : exn).

Definition TRUE_line : str := lit "TRUE" ++ [10%N].
Definition FALSE_line : str := lit "FALSE" ++ [10%N].
Definition ERR_line : str := lit "ERR Unknown Command" ++ [10%N].

Section Program.
Context {rt : Runtime} {W : Type} {host : Host W}.
Local Open Scope breaker_scope.

(** Lines 24 and 25, on what [json.loads] gave or raised:
    [int(result.get("total_usage", 0))]. *)
Definition total_usage (output : result pyval) : result Z :=
  rbind output (fun result =>
  rbind (get result (lit "total_usage") (PyInt 0)) (fun total =>
  int total)).

Definition fetch_usage (d : date) : M W Z :=
  fun w =>
    let (output, w') := upstream d w in
    (try_except (total_usage output) (fun _ => Ok 0), w').

(** [fetch] is the module attribute [fetch_usage] as it is bound when
    the call is made; the test suite rebinds it. *)
Definition check_recent_costs (fetch : date -> M W Z) : M W bool :=
  fun w =>
    let (t1, w1) := utcnow w in
    let utc_today := date_of t1 in
    let (t2, w2) := utcnow w1 in
    let utc_yesterday := date_of (t2 - one_day) in
    (cost_today <- catch (fetch utc_today) (fun _ => ret 0) ;;
     cost_yesterday <- catch (fetch utc_yesterday) (fun _ => ret 0) ;;
     ret (cost_today + cost_yesterday >? 0)) w2.

(** The inner [while] of [main]. *)
Fixpoint read_loop (script : list recv_event) (data : bytes)
  : result bytes :=
  if endswith_nl data then Ok data
  else
    match script with
    | [] => Ok data
    | Recv [] :: _ => Ok data
    | Recv more :: rest => read_loop rest (data ++ more)
    | RecvError :: _ => Raise OSError
    end.

(** [data.decode("utf-8").strip().upper()]. *)
Definition command_of (data : bytes) : result str :=
  rbind (decode_utf8 data) (fun text => Ok (upper (strip text))).

(** Lines 59 to 63: from the buffer to the reply text. *)
Definition handle (data : bytes) : M W str :=
  command <- lift (command_of data) ;;
  if str_eqb command (lit "STATUS")
  then
    verdict <- check_recent_costs fetch_usage ;;
    ret (if verdict : bool then TRUE_line else FALSE_line)
  else ret ERR_line.

Definition sendall (c : connection) (out : bytes) : result bytes :=
  if writable c then Ok out else Raise OSError.

(** The reply as it goes on the wire: [result.encode("utf-8")]. *)
Definition respond (data : bytes) : M W bytes :=
  reply <- handle data ;;
  lift (encode_utf8 reply).

(** The body of [with conn:]; its value is what the client receives. *)
Definition serve (c : connection) : M W bytes :=
  data <- lift (read_loop (arriving c) []) ;;
  out <- respond data ;;
  lift (sendall c out).

(** [while True:] over the clients that show up.  The trace has one
    entry per accepted connection: the bytes written to it, or [None]
    when it was closed without a reply. *)
Fixpoint accept_loop (clients : list accept_event) (w : W)
  : list (option bytes) * final * W :=
  match clients with
  | [] => ([], Listening, w)
  | AcceptError :: _ => ([], Died OSError, w)
  | Accepted c :: rest =>
    match serve c w with
    | (Ok out, w') =>
      let '(trace, fin, w'') := accept_loop rest w' in
      (Some out :: trace, fin, w'')
    | (Raise e, w') => ([None], Died e, w')
    end
  end.

(** [bindable] tells whether [s.bind((HOST, PORT))] succeeds. *)
Definition main (bindable : bool) (clients : list accept_event) (w : W)
  : list (option bytes) * final * W :=
  if bindable then accept_loop clients w
  else ([], Died OSError, w).
End Program.

End Breaker.

(** ** The specification's wording, where it is compared with the code *)

Module Spec.
Import PyText PyValue Breaker.

(** The amount a fetch outcome contributes: a failure counts as 0. *)
Definition amount (r : result Z) : Z :=
  match r with
  | Ok a => a
  | Raise _ => 0
  end.

Definition contains_nl (data : bytes) : bool :=
  existsb (fun x => (b2n x =? 10)%N) data.

(** The read loop as the specification words it: reading stops once a
    newline has been seen anywhere in the data received so far. *)
Fixpoint read_until_newline_seen (script : list recv_event) (data : bytes)
  : result bytes :=
  if contains_nl data then Ok data
  else
    match script with
    | [] => Ok data
    | Recv [] :: _ => Ok data
    | Recv more :: rest => read_until_newline_seen rest (data ++ more)
    | RecvError :: _ => Raise OSError
    end.

Section Worded.
Context {rt : Runtime} {W : Type} {host : Host W}.
Local Open Scope breaker_scope.

(** The command token as the specification words it: trailing
    whitespace only is stripped. *)
Definition command_trailing_only (data : bytes) : result str :=
  rbind (decode_utf8 data) (fun text => Ok (upper (rstrip text))).

Definition handle_trailing_only (data : bytes) : M W str :=
  command <- lift (command_trailing_only data) ;;
  if str_eqb command (lit "STATUS")
  then
    verdict <- check_recent_costs fetch_usage ;;
    ret (if verdict : bool then TRUE_line else FALSE_line)
  else ret ERR_line.

(** The aggregator with the two fetches in the opposite order. *)
Definition check_yesterday_first (fetch : date -> M W Z) : M W bool :=
  fun w =>
    let (t1, w1) := utcnow w in
    let utc_today := date_of t1 in
    let (t2, w2) := utcnow w1 in
    let utc_yesterday := date_of (t2 - one_day) in
    (cost_yesterday <- catch (fetch utc_yesterday) (fun _ => ret 0) ;;
     cost_today <- catch (fetch utc_today) (fun _ => ret 0) ;;
     ret (cost_today + cost_yesterday >? 0)) w2.
End Worded.

(** The three reply lines of the wire protocol. *)
Definition reply_lines : list bytes :=
  [line "TRUE"; line "FALSE"; line "ERR Unknown Command"].

(** An ASCII whitespace byte, as [str.strip] removes it. *)
Definition ascii_space (x : byte) : bool :=
  between 9 13 (b2n x) || between 28 32 (b2n x).

(** Bytes that are whitespace and nothing else: they decode as UTF-8, and
    every code point of the text is one that [str.strip] removes (the
    ASCII blanks and line ends, and also U+0085, U+00A0, U+2028, U+3000 and
    the like). *)
Definition whitespace_bytes (pad : bytes) : bool :=
  match decode_utf8 pad with
  | Ok text => forallb is_whitespace text
  | Raise _ => false
  end.

(** The word [status] with each letter in either case. *)
Definition casing_of_status (word : bytes) : Prop :=
  Forall2 (fun x u => b2n x = u \/ b2n x = (u + 32)%N) word (lit "STATUS").

(** An error on a client socket: [accept] raises, a [recv] of the read
    loop raises, or [sendall] does. *)
Definition io_error (ev : accept_event) : Prop :=
  match ev with
  | AcceptError => True
  | Accepted c =>
    (exists e, read_loop (arriving c) [] = Raise e) \/ writable c = false
  end.

(** A [total_usage] that denotes a negative amount: a negative integer, a
    float with the sign bit set, or a string with a minus sign in it. *)
Definition negative_total (total : pyval) : Prop :=
  match total with
  | PyInt z => z < 0
  | PyFloat (S754_finite true _ _) => True
  | PyStr s => In 45%N s
  | _ => False
  end.

(** The value of a finite float as a rational: [m * 2^e], signed. *)
Definition float_value (f : spec_float) : option Q :=
  match f with
  | S754_zero _ => Some (0 # 1)
  | S754_finite s m e =>
    let mag :=
      match e with
      | Z.neg k => Z.pos m # (2 ^ k)
      | _ => inject_Z (Z.pos m * 2 ^ e)
      end in
    Some (if s then Qopp mag else mag)
  | _ => None
  end.

(** Truncation of a rational toward zero. *)
Definition truncate (q : Q) : Z :=
  if Qle_bool 0 q then Qfloor q else Qceiling q.

End Spec.

(** ** A simulated host, for running the model *)

Module Sim.
Import PyText PyValue Breaker.

(** An excerpt of the Unicode database: the code points whose upper case
    contains an ASCII letter, and the Arabic-Indic digits.  Every other
    code point above ASCII is left as it is and is no digit, which is
    enough for input that stays within ASCII and this excerpt. *)
Definition sample_upper (c : N) : list N :=
  (if c =? 223 then lit "SS"
   else if c =? 305 then lit "I"
   else if c =? 329 then [700; 78]
   else if c =? 383 then lit "S"
   else if c =? 496 then [74; 780]
   else if c =? 7830 then [72; 817]
   else if c =? 7831 then [84; 776]
   else if c =? 7832 then [87; 778]
   else if c =? 7833 then [89; 778]
   else if c =? 7834 then [65; 702]
   else if c =? 64256 then lit "FF"
   else if c =? 64257 then lit "FI"
   else if c =? 64258 then lit "FL"
   else if c =? 64259 then lit "FFI"
   else if c =? 64260 then lit "FFL"
   else if c =? 64261 then lit "ST"
   else if c =? 64262 then lit "ST"
   else [c])%N.

#[export] Instance sample_runtime : Runtime := {
  unicode_upper := sample_upper;
  unicode_decimal := fun c =>
    if between 1632 1641 c then Some (c - 1632)%N else None;
  int_max_str_digits := 4300
}.

(** The clock stands still; the endpoint answers from a queue of canned
    outcomes; [results] is the list the test suite's stub pops from. *)
Record world : Type := {
  clock : instant;
  responses : list (result pyval);
  results : list Z
}.

#[export] Instance sim_host : Host world := {
  utcnow := fun w => (clock w, w);
  upstream := fun _ w =>
    match responses w with
    | [] => (Raise OSError, w)
    | r :: rest =>
      (r, {| clock := clock w; responses := rest; results := results w |})
    end
}.

(** [lambda date: results.pop(0)]. *)
Definition pop_result (_ : date) : M world Z :=
  fun w =>
    match results w with
    | [] => (Raise (Exception "pop from empty list"), w)
    | x :: rest =>
      (Ok x, {| clock := clock w; responses := responses w; results := rest |})
    end.

Definition usage (total : pyval) : result pyval :=
  Ok (PyDict [(lit "total_usage", total)]).

(** Noon UTC of 4 November 2025, day 20396. *)
Definition noon : instant := 1762257600000000.

(** A world whose endpoint will give the outcomes [rs], in that order. *)
Definition answering (rs : list (result pyval)) : world :=
  {| clock := noon; responses := rs; results := [] |}.

(** A world for a stub that pops its amounts from [xs]. *)
Definition popping (xs : list Z) : world :=
  {| clock := noon; responses := []; results := xs |}.

(** A client that delivers [chunks] and then closes its side. *)
Definition client (chunks : list bytes) : accept_event :=
  Accepted {| arriving := map Recv chunks; writable := true |}.

(** A client whose first [recv] raises. *)
Definition broken_client : accept_event :=
  Accepted {| arriving := [RecvError]; writable := true |}.

End Sim.

From Stdlib Require Import Permutation DecimalN.

(** ** A host whose clock advances *)

Module Ticking.
Import PyText PyValue Breaker.

(** Each [utcnow()] takes the next instant of [ticks]; the endpoint
    answers from a queue, as in [Sim]. *)
Record world : Type := {
  ticks : list instant;
  bodies : list (result pyval)
}.

#[export] Instance ticking_host : Host world := {
  utcnow := fun w =>
    match ticks w with
    | [] => (0, w)
    | t :: later => (t, {| ticks := later; bodies := bodies w |})
    end;
  upstream := fun _ w =>
    match bodies w with
    | [] => (Raise OSError, w)
    | r :: rest => (r, {| ticks := ticks w; bodies := rest |})
    end
}.

(** One second before, and one second after, midnight UTC at the start of
    day 20397. *)
Definition before_midnight : instant := 20397 * one_day - 1000000.
Definition after_midnight : instant := 20397 * one_day + 1000000.

End Ticking.

(** ** Conditions on clients and on upstream bodies *)

Module Traffic.
Import PyText PyValue Breaker.

(** A client that is accepted, whose bytes arrive without an error and
    decode as UTF-8, and that can be written to. *)
Definition healthy (ev : accept_event) : Prop :=
  match ev with
  | AcceptError => False
  | Accepted c =>
    writable c = true
    /\ exists data text,
         read_loop (arriving c) [] = Ok data /\ decode_utf8 data = Ok text
  end.

(** A trace entry that is one of the three reply lines. *)
Definition reply_entry (t : option bytes) : Prop :=
  exists out, t = Some out /\ In out Spec.reply_lines.

(** A [total_usage] that [int] refuses whatever the runtime: [None], a
    list, an object, NaN or an infinity. *)
Definition not_a_number (total : pyval) : Prop :=
  match total with
  | PyNone | PyList _ | PyDict _ => True
  | PyFloat S754_nan | PyFloat (S754_infinity _) => True
  | _ => False
  end.

(** A body [{"total_usage": n, ...}]. *)
Definition integer_total (output : result pyval) (n : Z) : Prop :=
  exists obj,
    output = Ok (PyDict obj)
    /\ dict_lookup obj (lit "total_usage") = Some (PyInt n).

End Traffic.

(** ** The dataset scripts (extract_from_hf_dataset.py,
    test_dataset_structure.py) *)

Module Dataset.
Import PyText Breaker.

Local Open Scope N_scope.

(** [str.lower] of a text that is not all ASCII goes by the Unicode
    database (and, for the final sigma, by context); that part is no code
    of this repository. *)
Class Casefold : Type := {
  unicode_lower : str -> str
}.

Definition ascii_lower (c : N) : N :=
  if between 65 90 c then c + 32 else c.

Definition is_ascii (s : str) : bool := forallb (fun c => c <? 128) s.

Section Lower.
Context {cf : Casefold}.

(** [s.lower()]. *)
Definition lower (s : str) : str :=
  if is_ascii s then map ascii_lower s else unicode_lower s.
End Lower.

Fixpoint startswith (needle hay : str) : bool :=
  match needle, hay with
  | [], _ => true
  | _ :: _, [] => false
  | x :: needle', y :: hay' => (x =? y) && startswith needle' hay'
  end.

(** [needle in hay], on strings. *)
Fixpoint contains (needle hay : str) : bool :=
  startswith needle hay
  || match hay with
     | [] => false
     | _ :: hay' => contains needle hay'
     end.

(** A value of a dataset row, as far as the scripts look at it: a [str],
    a [bytes], or another object (a number, [None], a decoded video), with
    [str(value.path)] when it has a [path] attribute, what [value.read()]
    does when it has a [read] method, and what [str(value)] gives or
    raises. *)
Inductive value : Type :=
| VStr (s : str)
| VBytes (b : bytes)
| VObj (path : option str) (read : option (result bytes))
       (shown : result str).

(** A row: a [dict] with [str] keys, in insertion order. *)
Definition sample : Type := list (str * value).

(** [field in sample]. *)
Definition has_key (field : str) (row : sample) : bool :=
  existsb (fun kv => str_eqb (fst kv) field) row.

Definition video_fields : list str :=
  [lit "video"; lit "video_file"; lit "video_path"; lit "mp4"; lit "movie";
   lit "clip"].

Definition caption_fields : list str :=
  [lit "caption"; lit "text"; lit "description"; lit "prompt"; lit "title";
   lit "label"].

Definition video_exts : list str :=
  [lit ".mp4"; lit ".avi"; lit ".mov"; lit ".mkv"].

Section Detect.
Context {cf : Casefold}.

(** [any(ext in s.lower() for ext in ['.mp4', '.avi', '.mov', '.mkv'])]. *)
Definition has_video_ext (s : str) : bool :=
  existsb (fun ext => contains ext (lower s)) video_exts.

(** The two tests of the second loop of [detect_video_field]: a [str]
    with a video extension in it, or an object whose [path] has one. *)
Definition looks_like_video (v : value) : bool :=
  match v with
  | VStr s => has_video_ext s
  | VBytes _ => false
  | VObj (Some p) _ _ => has_video_ext p
  | VObj None _ _ => false
  end.

Definition detect_video_field (row : sample) : option str :=
  match find (fun field => has_key field row) video_fields with
  | Some field => Some field
  | None =>
    match find (fun kv => looks_like_video (snd kv)) row with
    | Some (key, _) => Some key
    | None => None
    end
  end.

Definition detect_caption_field (row : sample) : option str :=
  find (fun field => has_key field row) caption_fields.

(** *** The analysis of test_dataset_structure.py *)

Definition video_keywords : list str :=
  [lit "video"; lit "mp4"; lit "movie"; lit "clip"].

Definition caption_keywords : list str :=
  [lit "caption"; lit "text"; lit "description"; lit "prompt"; lit "title";
   lit "label"].

(** [any(keyword in key.lower() for keyword in keywords)]. *)
Definition key_mentions (keywords : list str) (key : str) : bool :=
  existsb (fun keyword => contains keyword (lower key)) keywords.

(** The list [video_candidates] that the analysis builds and prints. *)
Definition video_candidates (row : sample) : list str :=
  map fst
    (filter (fun kv =>
               key_mentions video_keywords (fst kv)
               || looks_like_video (snd kv))
            row).

(** The list [caption_candidates]. *)
Definition caption_candidates (row : sample) : list str :=
  map fst (filter (fun kv => key_mentions caption_keywords (fst kv)) row).
End Detect.

(** *** How many rows are extracted, and under which names *)

(** [min(len(dataset), max_samples) if max_samples else len(dataset)];
    [max_samples] is [None] or an [int]. *)
Definition samples_to_process (len : Z) (max_samples : option Z) : Z :=
  match max_samples with
  | Some m => if (m =? 0)%Z then len else Z.min len m
  | None => len
  end.

(** The indices [range(n)] runs over. *)
Definition range (n : Z) : list N := map N.of_nat (seq 0 (Z.to_nat n)).

Fixpoint digits (d : Decimal.uint) : str :=
  match d with
  | Decimal.Nil => []
  | Decimal.D0 d' => 48 :: digits d'
  | Decimal.D1 d' => 49 :: digits d'
  | Decimal.D2 d' => 50 :: digits d'
  | Decimal.D3 d' => 51 :: digits d'
  | Decimal.D4 d' => 52 :: digits d'
  | Decimal.D5 d' => 53 :: digits d'
  | Decimal.D6 d' => 54 :: digits d'
  | Decimal.D7 d' => 55 :: digits d'
  | Decimal.D8 d' => 56 :: digits d'
  | Decimal.D9 d' => 57 :: digits d'
  end.

(** The digits read back. *)
Fixpoint undigits (s : str) : Decimal.uint :=
  match s with
  | [] => Decimal.Nil
  | c :: r =>
    let d := undigits r in
    if c =? 48 then Decimal.D0 d
    else if c =? 49 then Decimal.D1 d
    else if c =? 50 then Decimal.D2 d
    else if c =? 51 then Decimal.D3 d
    else if c =? 52 then Decimal.D4 d
    else if c =? 53 then Decimal.D5 d
    else if c =? 54 then Decimal.D6 d
    else if c =? 55 then Decimal.D7 d
    else if c =? 56 then Decimal.D8 d
    else Decimal.D9 d
  end.

(** [f"{idx:06d}"] of an index: its decimal digits, with zeros in front up
    to six characters. *)
Definition format_06d (idx : N) : str :=
  let ds := digits (N.to_uint idx) in
  repeat 48 (6 - List.length ds) ++ ds.

Definition video_filename (idx : N) : str :=
  lit "video_" ++ format_06d idx ++ lit ".mp4".

Definition caption_filename (idx : N) : str :=
  lit "video_" ++ format_06d idx ++ lit ".txt".

(** *** Writing one video out *)

(** The file system, as [extract_video_file] uses it. *)
Class Files (W : Type) : Type := {
  (** [os.path.exists(p)] *)
  path_exists : str -> W -> bool * W;
  (** [shutil.copy2(src, dst)] *)
  copy2 : str -> str -> W -> result unit * W;
  (** [open(p, 'wb')] *)
  open_wb : str -> W -> result unit * W;
  (** [f.write(data)] and the close at the end of the [with] *)
  write : str -> bytes -> W -> result unit * W;
  (** [with open(p, 'w', encoding='utf-8') as f: f.write(text)] *)
  write_text : str -> str -> W -> result unit * W;
  (** [directory / name], a [Path] *)
  joinpath : str -> str -> str;
  (** [str(b)] of a [bytes] *)
  bytes_text : bytes -> str
}.

(** What the function returns: [True], [False], or [None] when it falls
    off its end. *)
Inductive returned : Type :=
| RTrue
| RFalse
| RNone.

(** The truth value an [if] gives it. *)
Definition truthy (r : returned) : bool :=
  match r with
  | RTrue => true
  | RFalse | RNone => false
  end.

Section Extract.
Context {W : Type} {files : Files W}.
Local Open Scope breaker_scope.

Definition extract_video_file (video_data : value) (output_path : str)
  : M W returned :=
  catch
    (match video_data with
     | VStr s =>
       fun w =>
         let (there, w') := path_exists s w in
         if there
         then (_ <- copy2 s output_path ;; ret RTrue) w'
         else (Ok RNone, w')
     | VObj (Some p) _ _ =>
       _ <- copy2 p output_path ;; ret RTrue
     | VObj None (Some reading) _ =>
       _ <- open_wb output_path ;;
       data <- lift reading ;;
       _ <- write output_path data ;;
       ret RTrue
     | VBytes b =>
       _ <- open_wb output_path ;;
       _ <- write output_path b ;;
       ret RTrue
     | VObj None None _ => ret RFalse
     end)
    (fun _ => ret RFalse).

(** *** The extraction run *)

(** [KeyError], a subclass of [Exception], carried under its name. *)
Definition KeyError : exn := Exception "KeyError".

(** [row[field]]. *)
Definition getitem (row : sample) (field : str) : result value :=
  match find (fun kv => str_eqb (fst kv) field) row with
  | Some (_, v) => Ok v
  | None => Raise KeyError
  end.

(** [str(value)]. *)
Definition to_text (v : value) : result str :=
  match v with
  | VStr s => Ok s
  | VBytes b => Ok (bytes_text b)
  | VObj _ _ shown => shown
  end.

(** The caption written for a row whose video was extracted: the text of
    the caption column when one was detected and the row has it, and the
    empty text otherwise; the [str()] of the column may raise. *)
Definition caption_text (caption_field : option str) (row : sample)
  : result str :=
  match caption_field with
  | Some (c :: name) =>
    if has_key (c :: name) row
    then rbind (getitem row (c :: name)) to_text
    else Ok []
  | _ => Ok []
  end.

(** The body of the [for] loop, from the row of index [idx] on.  Each
    element of [rows] is what [dataset[idx]] gives or raises for its
    index; [successful] counts the videos written so far. *)
Fixpoint extract_rows
    (video_field : str) (caption_field : option str)
    (output_videos output_captions : str)
    (idx : N) (rows : list (result sample)) (successful : Z) : M W Z :=
  match rows with
  | [] => ret successful
  | access :: later =>
    row <- lift access ;;
    video <- lift (getitem row video_field) ;;
    written <- extract_video_file video
                 (joinpath output_videos (video_filename idx)) ;;
    if truthy written
    then
      text <- lift (caption_text caption_field row) ;;
      _ <- write_text (joinpath output_captions (caption_filename idx))
             text ;;
      extract_rows video_field caption_field output_videos output_captions
        (idx + 1) later (successful + 1)%Z
    else
      extract_rows video_field caption_field output_videos output_captions
        (idx + 1) later successful
  end.
End Extract.

(** What a run of [extract_from_hf_dataset] logs last: why it stopped
    early, or how many videos it wrote out of how many rows. *)
Inductive report : Type :=
| LoadFailed
| EmptyDataset
| NoVideoField
| Extracted (successful total : Z).

Section Run.
Context {cf : Casefold} {W : Type} {files : Files W}.
Local Open Scope breaker_scope.

(** [loaded] is what [load_dataset(dataset_name, split=split)] returned
    or raised; a dataset is given by what [dataset[idx]] gives or raises
    for each index below [len(dataset)]. *)
Definition extract_from_hf_dataset
    (loaded : result (list (result sample)))
    (output_videos output_captions : str)
    (max_samples : option Z) : M W report :=
  match loaded with
  | Raise _ => ret LoadFailed
  | Ok [] => ret EmptyDataset
  | Ok (first_access :: others) =>
    first_sample <- lift first_access ;;
    match detect_video_field first_sample with
    | None => ret NoVideoField
    | Some video_field =>
      let dataset := first_access :: others in
      let caption_field := detect_caption_field first_sample in
      let total :=
        samples_to_process (Z.of_nat (List.length dataset)) max_samples in
      successful <-
        extract_rows video_field caption_field output_videos output_captions
          0 (firstn (Z.to_nat total) dataset) 0%Z ;;
      ret (Extracted successful total)
    end
  end.
End Run.

End Dataset.

(** ** The wrapper (process_hf_dataset.py) *)

Module Pipeline.
Import PyText Dataset.

Local Open Scope N_scope.

(** [s.replace(old, new)] for one-character [old] and [new]. *)
Definition replace_char (old new : N) (s : str) : str :=
  map (fun c => if c =? old then new else c) s.

(** The default [output_name]:
    [dataset_name.replace("/", "_").replace("-", "_")]. *)
Definition default_output_name (dataset_name : str) : str :=
  replace_char 45 95 (replace_char 47 95 dataset_name).

(** The default [temp_dir]: [f"/tmp/hallo3_processing_{output_name}"]. *)
Definition default_temp_dir (output_name : str) : str :=
  lit "/tmp/hallo3_processing_" ++ output_name.

Section Cleanup.
Context {cf : Casefold}.

(** Whether the temporary files go, after the answer to
    ["Keep temporary files? (y/N): "]:
    [input(...).lower().strip() != 'y']. *)
Definition removes_temp (answer : str) : bool :=
  negb (str_eqb (strip (lower answer)) (lit "y")).
End Cleanup.

End Pipeline.

(** ** A file system in memory *)

Module MemFiles.
Import PyText Dataset.

(** The files that exist, with their contents, latest first.  A copy
    fails when its source is missing; opening and writing succeed; a
    [bytes] prints as a fixed text. *)
Definition disk : Type := list (str * bytes).

Fixpoint content (d : disk) (p : str) : option bytes :=
  match d with
  | [] => None
  | (q, b) :: rest => if str_eqb q p then Some b else content rest p
  end.

#[export] Instance mem_files : Files disk := {
  path_exists := fun p d =>
    (match content d p with Some _ => true | None => false end, d);
  copy2 := fun src dst d =>
    match content d src with
    | Some b => (Ok tt, (dst, b) :: d)
    | None => (Raise OSError, d)
    end;
  open_wb := fun p d => (Ok tt, (p, []) :: d);
  write := fun p b d => (Ok tt, (p, b) :: d);
  write_text := fun p text d =>
    match encode_utf8 text with
    | Ok b => (Ok tt, (p, b) :: d)
    | Raise e => (Raise e, (p, []) :: d)
    end;
  joinpath := fun directory name => directory ++ lit "/" ++ name;
  bytes_text := fun _ => lit "b'...'"
}.

(** A lowering that leaves a text with a code point above ASCII as it
    is, which is enough for input that stays within ASCII. *)
#[export] Instance ascii_casefold : Casefold := {
  unicode_lower := fun s => s
}.

End MemFiles.

(** ** Inputs for running the further properties *)

Module Cases.
Import PyText PyValue Breaker Sim Dataset.

(** A world in which the first clock read falls just before midnight and
    the second just after it. *)
Definition over_midnight (rs : list (result pyval)) : Ticking.world :=
  {| Ticking.ticks := [Ticking.before_midnight; Ticking.after_midnight];
     Ticking.bodies := rs |}.

(** A client that sends [PING]. *)
Definition pinging : connection :=
  {| arriving := [Recv (line "PING")]; writable := true |}.

(** A row with a caption and a clip stored as bytes, and a row that has
    the caption only. *)
Definition full_row : sample :=
  [(lit "caption", VStr (lit "a cat")); (lit "clip", VBytes [x00; x01])].

Definition bare_row : sample :=
  [(lit "caption", VStr (lit "a dog"))].

(** A row whose only hint of a video is the extension in a value. *)
Definition hinting_row : sample :=
  [(lit "id", VObj None None (Ok (lit "7")));
   (lit "file", VStr (lit "clips/A.MP4"))].

End Cases.

(** * Properties *)

Import PyText PyValue Breaker.

(** ** The aggregator *)

Section Aggregator.
Context {rt : Runtime} {W : Type} {host : Host W}.

(** An [except Exception] that falls back to 0 leaves the failure-defaulted
    amount, in the world the call left behind. *)
Lemma catch_amount (c : M W Z) (w : W) :
  catch c (fun _ => ret 0) w = (Ok (Spec.amount (fst (c w))), snd (c w)).
Proof.
  unfold catch, ret. destruct (c w) as [[a | e] w']; reflexivity.
Qed.

(** The aggregator, run: two clock reads, then the fetch for today, then
    the fetch for yesterday in the world the first one left. *)
Lemma check_recent_costs_run (fetch : date -> M W Z) (w : W) :
  let w1 := snd (utcnow w) in
  let w2 := snd (utcnow w1) in
  let first := fetch (date_of (fst (utcnow w))) w2 in
  let second := fetch (date_of (fst (utcnow w1) - one_day)) (snd first) in
  check_recent_costs fetch w =
  (Ok (Spec.amount (fst first) + Spec.amount (fst second) >? 0), snd second).
Proof.
  cbv zeta. unfold check_recent_costs.
  destruct (utcnow w) as [t1 w1]. cbn [fst snd].
  destruct (utcnow w1) as [t2 w2]. cbn [fst snd].
  unfold bind at 1. rewrite catch_amount.
  unfold bind at 1. rewrite catch_amount.
  reflexivity.
Qed.

Lemma check_yesterday_first_run (fetch : date -> M W Z) (w : W) :
  let w1 := snd (utcnow w) in
  let w2 := snd (utcnow w1) in
  let first := fetch (date_of (fst (utcnow w1) - one_day)) w2 in
  let second := fetch (date_of (fst (utcnow w))) (snd first) in
  Spec.check_yesterday_first fetch w =
  (Ok (Spec.amount (fst second) + Spec.amount (fst first) >? 0), snd second).
Proof.
  cbv zeta. unfold Spec.check_yesterday_first.
  destruct (utcnow w) as [t1 w1]. cbn [fst snd].
  destruct (utcnow w1) as [t2 w2]. cbn [fst snd].
  unfold bind at 1. rewrite catch_amount.
  unfold bind at 1. rewrite catch_amount.
  reflexivity.
Qed.

(** The aggregator returns; no exception leaves it. *)
Lemma check_recent_costs_returns (fetch : date -> M W Z) (w : W) :
  exists verdict w', check_recent_costs fetch w = (Ok verdict, w').
Proof.
  rewrite check_recent_costs_run. eauto.
Qed.

(** C1: when the fetch for today returns [a] and the fetch for yesterday
    returns [b], both non-negative, [check_recent_costs] returns [True]
    if and only if [a + b > 0]. *)
Theorem check_recent_costs_sum
    (fetch : date -> M W Z) (w w1 w2 w3 w4 : W) (t1 t2 : instant) (a b : Z) :
  0 <= a -> 0 <= b ->
  utcnow w = (t1, w1) ->
  utcnow w1 = (t2, w2) ->
  fetch (date_of t1) w2 = (Ok a, w3) ->
  fetch (date_of (t2 - one_day)) w3 = (Ok b, w4) ->
  exists verdict,
    check_recent_costs fetch w = (Ok verdict, w4)
    /\ (verdict = true <-> a + b > 0).
Proof.
  intros _ _ Hnow1 Hnow2 Htoday Hyesterday.
  rewrite check_recent_costs_run. cbv zeta.
  rewrite Hnow1. cbn [fst snd]. rewrite Hnow2. cbn [fst snd].
  rewrite Htoday. cbn [fst snd]. rewrite Hyesterday. cbn [fst snd Spec.amount].
  eexists. split; [reflexivity |].
  rewrite Z.gtb_ltb, Z.ltb_lt. lia.
Qed.

(** C2: whatever the two fetch calls do, return or raise, the aggregator
    returns: its verdict is whether the sum of the two amounts is
    positive, a call that raised counting as 0 and leaving the other
    call's amount as it is; when both raise the verdict is [False]. *)
Theorem check_recent_costs_isolates_failures
    (fetch : date -> M W Z) (w w1 w2 w3 w4 : W) (t1 t2 : instant)
    (today yesterday : result Z) :
  utcnow w = (t1, w1) ->
  utcnow w1 = (t2, w2) ->
  fetch (date_of t1) w2 = (today, w3) ->
  fetch (date_of (t2 - one_day)) w3 = (yesterday, w4) ->
  check_recent_costs fetch w
  = (Ok (Spec.amount today + Spec.amount yesterday >? 0), w4)
  /\ (forall e b, today = Raise e -> yesterday = Ok b ->
        check_recent_costs fetch w = (Ok (b >? 0), w4))
  /\ (forall a e, today = Ok a -> yesterday = Raise e ->
        check_recent_costs fetch w = (Ok (a >? 0), w4))
  /\ (forall e e', today = Raise e -> yesterday = Raise e' ->
        check_recent_costs fetch w = (Ok false, w4)).
Proof.
  intros Hnow1 Hnow2 Htoday Hyesterday.
  assert (Hrun : check_recent_costs fetch w
                 = (Ok (Spec.amount today + Spec.amount yesterday >? 0), w4)).
  { rewrite check_recent_costs_run. cbv zeta.
    rewrite Hnow1. cbn [fst snd]. rewrite Hnow2. cbn [fst snd].
    rewrite Htoday. cbn [fst snd]. rewrite Hyesterday. reflexivity. }
  split; [exact Hrun |].
  repeat split; intros; subst; rewrite Hrun; cbn [Spec.amount];
    rewrite ?Z.add_0_l, ?Z.add_0_r; reflexivity.
Qed.

(** C8: with a fetch whose outcome depends on the date alone, fetching
    today first and fetching yesterday first give the same verdict, which
    is whether the sum of the two failure-defaulted amounts is positive. *)
Theorem check_recent_costs_order_irrelevant
    (outcome : date -> result Z) (w : W) :
  let fetch := fun d => lift (outcome d) : M W Z in
  let today := date_of (fst (utcnow w)) in
  let yesterday := date_of (fst (utcnow (snd (utcnow w))) - one_day) in
  fst (check_recent_costs fetch w) = fst (Spec.check_yesterday_first fetch w)
  /\ fst (check_recent_costs fetch w)
     = Ok (Spec.amount (outcome today) + Spec.amount (outcome yesterday) >? 0).
Proof.
  cbv zeta.
  rewrite check_recent_costs_run, check_yesterday_first_run.
  cbv zeta. unfold lift. cbn [fst snd]. split; reflexivity.
Qed.
End Aggregator.

(** ** Text *)

Section Text.
Local Open Scope N_scope.

Lemma str_eqb_eq (a b : str) : str_eqb a b = true <-> a = b.
Proof.
  revert b. induction a as [| x a IH]; destruct b as [| y b]; cbn;
    try (split; [discriminate | congruence]).
  - split; reflexivity.
  - rewrite andb_true_iff, N.eqb_eq, IH. split.
    + intros [-> ->]. reflexivity.
    + intros [= -> ->]. split; reflexivity.
Qed.

Lemma str_eqb_neq (a b : str) : str_eqb a b = false <-> a <> b.
Proof.
  rewrite <- str_eqb_eq. destruct (str_eqb a b); split; congruence.
Qed.

Lemma rbind_raise {A B} (r : result A) (k : A -> result B) (e : exn) :
  rbind r k = Raise e ->
  r = Raise e \/ exists a, r = Ok a /\ k a = Raise e.
Proof.
  destruct r as [a | e']; cbn; intros H.
  - right. eauto.
  - left. congruence.
Qed.

(** The decoder raises nothing but [UnicodeDecodeError]. *)
Lemma decode_utf8_error (data : bytes) (e : exn) :
  decode_utf8 data = Raise e -> e = UnicodeDecodeError.
Proof.
  remember (List.length data) as n eqn:Hn.
  assert (Hle : (List.length data <= n)%nat) by lia. clear Hn.
  revert data Hle e.
  induction n as [| n IH]; intros data Hle e.
  - destruct data; [discriminate | cbn in Hle; lia].
  - destruct data as [| x0 r0]; [discriminate |].
    cbn [List.length] in Hle.
    assert (Hk : forall (r : bytes) (c : N),
               (List.length r <= n)%nat ->
               rbind (decode_utf8 r) (fun s => Ok (c :: s)) = Raise e ->
               e = UnicodeDecodeError).
    { intros r c Hr H. apply rbind_raise in H.
      destruct H as [H | [s [_ H]]]; [| discriminate].
      exact (IH r Hr e H). }
    cbn [decode_utf8]. cbv zeta.
    destruct (b2n x0 <? 128).
    { apply Hk. lia. }
    destruct (between 194 223 (b2n x0)).
    { destruct r0 as [| x1 r1]; [congruence |].
      destruct (is_cont (b2n x1)); [| congruence].
      apply Hk. cbn [List.length] in Hle. lia. }
    destruct (between 224 239 (b2n x0)).
    { destruct r0 as [| x1 [| x2 r2]]; try congruence.
      match goal with
      | |- (if ?c then _ else _) = _ -> _ => destruct c; [| congruence]
      end.
      apply Hk. cbn [List.length] in Hle. lia. }
    destruct (between 240 244 (b2n x0)); [| congruence].
    destruct r0 as [| x1 [| x2 [| x3 r3]]]; try congruence.
    match goal with
    | |- (if ?c then _ else _) = _ -> _ => destruct c; [| congruence]
    end.
    apply Hk. cbn [List.length] in Hle. lia.
Qed.

(** Bytes below 128 decode to themselves. *)
Lemma decode_utf8_ascii (data : bytes) :
  Forall (fun x => b2n x < 128) data ->
  decode_utf8 data = Ok (map b2n data).
Proof.
  induction 1 as [| x r Hx _ IH]; [reflexivity |].
  cbn [decode_utf8 map]. cbv zeta.
  apply N.ltb_lt in Hx. rewrite Hx, IH. reflexivity.
Qed.

Lemma lstrip_app_spaces (pre s : str) :
  Forall (fun c => is_whitespace c = true) pre ->
  lstrip (pre ++ s) = lstrip s.
Proof.
  induction 1 as [| c r Hc _ IH]; [reflexivity |].
  cbn [app lstrip]. rewrite Hc. exact IH.
Qed.

Lemma rstrip_app_spaces (s post : str) :
  Forall (fun c => is_whitespace c = true) post ->
  rstrip (s ++ post) = rstrip s.
Proof.
  intros H. unfold rstrip. rewrite rev_app_distr.
  rewrite lstrip_app_spaces; [reflexivity |].
  apply Forall_rev. exact H.
Qed.

(** A word that neither starts nor ends with whitespace is what [strip]
    leaves of it, whatever whitespace surrounds it. *)
Lemma strip_padded (pre w post : str) (c c' : N) (r r' : str) :
  Forall (fun c => is_whitespace c = true) pre ->
  Forall (fun c => is_whitespace c = true) post ->
  w = c :: r -> is_whitespace c = false ->
  rev w = c' :: r' -> is_whitespace c' = false ->
  strip (pre ++ w ++ post) = w.
Proof.
  intros Hpre Hpost Hw Hc Hrev Hc'.
  unfold strip. rewrite lstrip_app_spaces by exact Hpre.
  assert (Hl : lstrip (w ++ post) = w ++ post).
  { rewrite Hw. cbn [app lstrip]. rewrite Hc. reflexivity. }
  rewrite Hl, rstrip_app_spaces by exact Hpost.
  unfold rstrip. rewrite Hrev. cbn [lstrip]. rewrite Hc'.
  rewrite <- Hrev. apply rev_involutive.
Qed.
End Text.

(** ** The protocol handler *)

Section Handler.
Context {rt : Runtime} {W : Type} {host : Host W}.

Lemma encode_TRUE : encode_utf8 TRUE_line = Ok (line "TRUE").
Proof. reflexivity. Qed.

Lemma encode_FALSE : encode_utf8 FALSE_line = Ok (line "FALSE").
Proof. reflexivity. Qed.

Lemma encode_ERR : encode_utf8 ERR_line = Ok (line "ERR Unknown Command").
Proof. reflexivity. Qed.

(** A buffer that does not decode: the exception leaves the handler. *)
Lemma respond_undecodable (data : bytes) (e : exn) (w : W) :
  decode_utf8 data = Raise e -> respond data w = (Raise e, w).
Proof.
  intros H. unfold respond, handle, command_of, bind, lift.
  rewrite H. reflexivity.
Qed.

(** A command other than [STATUS]. *)
Lemma respond_unknown (data : bytes) (command : str) (w : W) :
  command_of data = Ok command ->
  command <> lit "STATUS" ->
  respond data w = (Ok (line "ERR Unknown Command"), w).
Proof.
  intros Hc Hne. apply str_eqb_neq in Hne.
  unfold respond, handle, bind, lift. rewrite Hc, Hne.
  unfold ret. rewrite encode_ERR. reflexivity.
Qed.

(** The command [STATUS]: the aggregator's verdict, as a line. *)
Lemma respond_status (data : bytes) (w : W) :
  command_of data = Ok (lit "STATUS") ->
  exists verdict w',
    check_recent_costs fetch_usage w = (Ok verdict, w')
    /\ respond data w
       = (Ok (if verdict : bool then line "TRUE" else line "FALSE"), w').
Proof.
  intros Hc.
  destruct (check_recent_costs_returns fetch_usage w) as [v [w' Hv]].
  exists v, w'. split; [exact Hv |].
  unfold respond, handle, bind, lift. rewrite Hc.
  change (str_eqb (lit "STATUS") (lit "STATUS")) with true. cbv beta iota.
  rewrite Hv. unfold ret.
  destruct v; [rewrite encode_TRUE | rewrite encode_FALSE]; reflexivity.
Qed.

(** The reply depends on the buffer through the command alone. *)
Lemma respond_command_ext (d1 d2 : bytes) (w : W) :
  command_of d1 = command_of d2 -> respond d1 w = respond d2 w.
Proof.
  intros H. unfold respond, handle, bind, lift. rewrite H. reflexivity.
Qed.

Lemma line_endswith_nl (s : string) : endswith_nl (line s) = true.
Proof.
  unfold endswith_nl, line. rewrite rev_app_distr. reflexivity.
Qed.

(** C3 (amended): a buffer that is valid UTF-8 is answered with exactly
    one of the three reply lines, each ending in a newline; for a buffer
    that is not valid UTF-8 the decoding raises [UnicodeDecodeError],
    which leaves the handler with no reply produced. *)
Theorem respond_line_or_decode_error (data : bytes) (w : W) :
  match decode_utf8 data with
  | Ok _ =>
    exists out w',
      respond data w = (Ok out, w')
      /\ In out Spec.reply_lines /\ endswith_nl out = true
  | Raise _ => respond data w = (Raise UnicodeDecodeError, w)
  end.
Proof.
  destruct (decode_utf8 data) as [text | e] eqn:Hd.
  - assert (Hc : command_of data = Ok (upper (strip text))).
    { unfold command_of. rewrite Hd. reflexivity. }
    destruct (str_eqb (upper (strip text)) (lit "STATUS")) eqn:Heq.
    + apply str_eqb_eq in Heq. rewrite Heq in Hc.
      destruct (respond_status data w Hc) as [v [w' [_ Hr]]].
      eexists. exists w'. split; [exact Hr |].
      split; [| destruct v; apply line_endswith_nl].
      unfold Spec.reply_lines. destruct v; cbn [In]; auto.
    + apply str_eqb_neq in Heq.
      exists (line "ERR Unknown Command"), w.
      split; [exact (respond_unknown data _ w Hc Heq) |].
      split; [| apply line_endswith_nl].
      unfold Spec.reply_lines. cbn [In]. auto.
  - rewrite (decode_utf8_error data e Hd) in Hd.
    exact (respond_undecodable data _ w Hd).
Qed.

(** C5 (amended): the command token is the decoded text with whitespace
    stripped at both ends, upper-cased; the token [STATUS] is answered
    with [TRUE] or [FALSE] after the aggregator's verdict and every other
    token with [ERR Unknown Command], the empty token of an empty line
    or of an end of file with no bytes included. *)
Theorem respond_by_command :
  (forall (data : bytes) (text : str) (w : W),
      decode_utf8 data = Ok text ->
      command_of data = Ok (upper (strip text))
      /\ (upper (strip text) = lit "STATUS" ->
          exists verdict w',
            check_recent_costs fetch_usage w = (Ok verdict, w')
            /\ respond data w
               = (Ok (if verdict : bool then line "TRUE" else line "FALSE"),
                  w'))
      /\ (upper (strip text) <> lit "STATUS" ->
          respond data w = (Ok (line "ERR Unknown Command"), w)))
  /\ (forall w : W, respond [] w = (Ok (line "ERR Unknown Command"), w))
  /\ (forall w : W,
         respond (line "") w = (Ok (line "ERR Unknown Command"), w)).
Proof.
  split; [| split].
  - intros data text w Hd.
    assert (Hc : command_of data = Ok (upper (strip text))).
    { unfold command_of. rewrite Hd. reflexivity. }
    split; [exact Hc |]. split.
    + intros Heq. rewrite Heq in Hc. exact (respond_status data w Hc).
    + intros Hne. exact (respond_unknown data _ w Hc Hne).
  - intros w. apply (respond_unknown [] []); [reflexivity | discriminate].
  - intros w. apply (respond_unknown (line "") []);
      [reflexivity | discriminate].
Qed.
End Handler.

(** ** Case and surrounding whitespace *)

Section Casing.
Context {rt : Runtime} {W : Type} {host : Host W}.
Local Open Scope N_scope.

Lemma ascii_space_whitespace (x : byte) :
  Spec.ascii_space x = true ->
  b2n x < 128 /\ is_whitespace (b2n x) = true.
Proof.
  unfold Spec.ascii_space, is_whitespace. intros H. rewrite H. split.
  - apply orb_true_iff in H. unfold between in H.
    rewrite !andb_true_iff, !N.leb_le in H. lia.
  - reflexivity.
Qed.

Lemma ascii_spaces (pad : bytes) :
  forallb Spec.ascii_space pad = true ->
  Forall (fun x => b2n x < 128) pad
  /\ Forall (fun c => is_whitespace c = true) (map b2n pad).
Proof.
  rewrite forallb_forall. intros H. split.
  - apply Forall_forall. intros x Hx.
    apply (ascii_space_whitespace x (H x Hx)).
  - apply Forall_forall. intros c Hc. apply in_map_iff in Hc.
    destruct Hc as [x [<- Hx]].
    apply (ascii_space_whitespace x (H x Hx)).
Qed.

(** A casing of [status] consists of six ASCII letters, is untouched by
    [strip], and upper-cases to [STATUS]. *)
Lemma casing_of_status_text (word : bytes) :
  Spec.casing_of_status word ->
  Forall (fun x => b2n x < 128) word
  /\ (exists c r c' r',
         map b2n word = c :: r /\ is_whitespace c = false
         /\ rev (map b2n word) = c' :: r' /\ is_whitespace c' = false)
  /\ upper (map b2n word) = lit "STATUS".
Proof.
  unfold Spec.casing_of_status.
  change (lit "STATUS") with [83; 84; 65; 84; 85; 83].
  intros H.
  inversion H as [| x1 u1 l1 m1 H1 T1]; subst; clear H.
  inversion T1 as [| x2 u2 l2 m2 H2 T2]; subst; clear T1.
  inversion T2 as [| x3 u3 l3 m3 H3 T3]; subst; clear T2.
  inversion T3 as [| x4 u4 l4 m4 H4 T4]; subst; clear T3.
  inversion T4 as [| x5 u5 l5 m5 H5 T5]; subst; clear T4.
  inversion T5 as [| x6 u6 l6 m6 H6 T6]; subst; clear T5.
  inversion T6; subst; clear T6.
  cbn [map rev app].
  split; [| split].
  - repeat constructor; lia.
  - do 4 eexists. split; [reflexivity |].
    split; [destruct H1 as [-> | ->]; reflexivity |].
    split; [reflexivity |].
    destruct H6 as [-> | ->]; reflexivity.
  - destruct H1 as [-> | ->], H2 as [-> | ->], H3 as [-> | ->],
      H4 as [-> | ->], H5 as [-> | ->], H6 as [-> | ->]; reflexivity.
Qed.

Lemma rbind_ok {A B} (r : result A) (k : A -> result B) (b : B) :
  rbind r k = Ok b -> exists a, r = Ok a /\ k a = Ok b.
Proof. destruct r as [a | e]; cbn; [eauto | discriminate]. Qed.

Lemma ok_inj {A} (x y : A) : Ok x = Ok y -> x = y.
Proof. congruence. Qed.

(** A buffer that decodes, followed by more bytes: the text of the
    buffer, followed by what the rest decodes to. *)
Lemma decode_utf8_app (a : bytes) :
  forall (ta : str) (b : bytes),
    decode_utf8 a = Ok ta ->
    decode_utf8 (a ++ b)
    = rbind (decode_utf8 b) (fun tb => Ok (ta ++ tb)).
Proof.
  remember (List.length a) as n eqn:Hn.
  assert (Hle : (List.length a <= n)%nat) by lia. clear Hn.
  revert a Hle.
  induction n as [| n IH]; intros a Hle ta b.
  - destruct a; [| cbn in Hle; lia]. intros H. apply ok_inj in H.
    subst ta. cbn [app]. destruct (decode_utf8 b); reflexivity.
  - destruct a as [| x0 r0].
    { intros H. apply ok_inj in H. subst ta. cbn [app].
      destruct (decode_utf8 b); reflexivity. }
    cbn [List.length] in Hle.
    assert (Hk : forall (r : bytes) (c : N),
               (List.length r <= n)%nat ->
               rbind (decode_utf8 r) (fun t => Ok (c :: t)) = Ok ta ->
               rbind (decode_utf8 (r ++ b)) (fun t => Ok (c :: t))
               = rbind (decode_utf8 b) (fun tb => Ok (ta ++ tb))).
    { intros r c Hr H. apply rbind_ok in H. destruct H as [t [Ht Hta]].
      apply ok_inj in Hta. subst ta. rewrite (IH r Hr t b Ht).
      destruct (decode_utf8 b); reflexivity. }
    cbn [app decode_utf8]. cbv zeta.
    destruct (b2n x0 <? 128).
    { apply Hk. lia. }
    destruct (between 194 223 (b2n x0)).
    { destruct r0 as [| x1 r1]; [discriminate |]. cbn [app].
      destruct (is_cont (b2n x1)); [| discriminate].
      apply Hk. cbn [List.length] in Hle. lia. }
    destruct (between 224 239 (b2n x0)).
    { destruct r0 as [| x1 [| x2 r2]]; try discriminate. cbn [app].
      match goal with
      | |- (if ?c then _ else _) = _ -> _ => destruct c; [| discriminate]
      end.
      apply Hk. cbn [List.length] in Hle. lia. }
    destruct (between 240 244 (b2n x0)); [| discriminate].
    destruct r0 as [| x1 [| x2 [| x3 r3]]]; try discriminate. cbn [app].
    match goal with
    | |- (if ?c then _ else _) = _ -> _ => destruct c; [| discriminate]
    end.
    apply Hk. cbn [List.length] in Hle. lia.
Qed.

Lemma whitespace_bytes_text (pad : bytes) :
  Spec.whitespace_bytes pad = true ->
  exists text,
    decode_utf8 pad = Ok text
    /\ Forall (fun c => is_whitespace c = true) text.
Proof.
  unfold Spec.whitespace_bytes.
  destruct (decode_utf8 pad) as [text | e]; [| discriminate].
  intros H. exists text. split; [reflexivity |].
  apply Forall_forall. apply forallb_forall. exact H.
Qed.

(** ASCII whitespace bytes are whitespace bytes. *)
Lemma ascii_spaces_whitespace_bytes (pad : bytes) :
  forallb Spec.ascii_space pad = true -> Spec.whitespace_bytes pad = true.
Proof.
  intros H. destruct (ascii_spaces pad H) as [Hascii Hws].
  unfold Spec.whitespace_bytes. rewrite (decode_utf8_ascii pad Hascii).
  apply forallb_forall. apply Forall_forall. exact Hws.
Qed.

(** C10: [status] in any letter-casing, with any whitespace before and
    after it (a carriage return and newline, leading blanks or tabs, and
    every other whitespace that [strip] removes, ASCII or not, in its
    UTF-8 bytes), is the command [STATUS] and gets the reply that [STATUS]
    followed by a newline gets: whitespace is stripped at both ends before
    the upper-casing. *)
Theorem respond_status_any_casing (pre word post : bytes) (w : W) :
  Spec.whitespace_bytes pre = true ->
  Spec.whitespace_bytes post = true ->
  Spec.casing_of_status word ->
  command_of (pre ++ word ++ post) = Ok (lit "STATUS")
  /\ respond (pre ++ word ++ post) w = respond (line "STATUS") w.
Proof.
  intros Hpre Hpost Hword.
  destruct (whitespace_bytes_text pre Hpre) as [tpre [Dpre Wpre]].
  destruct (whitespace_bytes_text post Hpost) as [tpost [Dpost Wpost]].
  destruct (casing_of_status_text word Hword)
    as [Aword [[c [r [c' [r' [Hw [Hc [Hrev Hc']]]]]]] Hup]].
  assert (Hcmd : command_of (pre ++ word ++ post) = Ok (lit "STATUS")).
  { unfold command_of.
    rewrite (decode_utf8_app pre tpre (word ++ post) Dpre).
    rewrite (decode_utf8_app word (map b2n word) post
               (decode_utf8_ascii word Aword)).
    rewrite Dpost. cbn [rbind].
    rewrite (strip_padded _ _ _ c c' r r' Wpre Wpost Hw Hc Hrev Hc').
    rewrite Hup. reflexivity. }
  split; [exact Hcmd |].
  apply respond_command_ext. rewrite Hcmd. reflexivity.
Qed.
End Casing.

(** ** The read loop *)

Section ReadLoop.
Context {rt : Runtime} {W : Type} {host : Host W}.

Lemma read_loop_eq (script : list recv_event) (data : bytes) :
  read_loop script data =
  if endswith_nl data then Ok data
  else
    match script with
    | [] => Ok data
    | Recv [] :: _ => Ok data
    | Recv more :: rest => read_loop rest (data ++ more)
    | RecvError :: _ => Raise OSError
    end.
Proof. destruct script; reflexivity. Qed.

(** The loop raises nothing but the [OSError] of a failed [recv]. *)
Lemma read_loop_error (script : list recv_event) (data : bytes) (e : exn) :
  read_loop script data = Raise e -> e = OSError.
Proof.
  revert data. induction script as [| ev rest IH]; intros data;
    rewrite read_loop_eq; destruct (endswith_nl data); try discriminate.
  destruct ev as [[| x more] |]; try discriminate.
  - apply IH.
  - congruence.
Qed.

(** The loop started on a buffer [data] that the chunks are appended
    to. *)
Lemma read_loop_from (chunks : list bytes) (data : bytes) :
  exists k,
    (k <= List.length chunks)%nat
    /\ read_loop (map Recv chunks) data
       = Ok (data ++ List.concat (firstn k chunks))
    /\ (endswith_nl (data ++ List.concat (firstn k chunks)) = true
        \/ nth_error chunks k = Some []
        \/ k = List.length chunks)
    /\ (forall j, (j < k)%nat ->
          endswith_nl (data ++ List.concat (firstn j chunks)) = false
          /\ nth_error chunks j <> Some []).
Proof.
  revert data. induction chunks as [| chunk rest IH]; intros data.
  - exists 0%nat. cbn [map firstn List.concat List.length].
    rewrite app_nil_r, read_loop_eq.
    split; [lia |]. split; [destruct (endswith_nl data); reflexivity |].
    split; [auto | intros j Hj; lia].
  - cbn [map]. rewrite read_loop_eq.
    destruct (endswith_nl data) eqn:Hend.
    + exists 0%nat. cbn [firstn List.concat]. rewrite app_nil_r.
      split; [cbn; lia |]. split; [reflexivity |].
      split; [auto | intros j Hj; lia].
    + destruct chunk as [| x more].
      * exists 0%nat. cbn [firstn List.concat]. rewrite app_nil_r.
        split; [cbn; lia |]. split; [reflexivity |].
        split; [right; left; reflexivity | intros j Hj; lia].
      * destruct (IH (data ++ x :: more)) as [k [Hk [Hrun [Hstop Hbefore]]]].
        exists (S k). cbn [firstn List.concat List.length nth_error].
        rewrite app_assoc.
        split; [lia |]. split; [exact Hrun |]. split.
        { destruct Hstop as [H | [H | H]]; auto. }
        intros [| j] Hj.
        { cbn [firstn List.concat nth_error]. rewrite app_nil_r.
          split; [exact Hend | discriminate]. }
        cbn [firstn List.concat nth_error]. rewrite app_assoc.
        apply Hbefore. lia.
Qed.

Lemma serve_writable (script : list recv_event) (data : bytes) (w : W) :
  read_loop script [] = Ok data ->
  serve {| arriving := script; writable := true |} w = respond data w.
Proof.
  intros H. unfold serve, bind, lift, sendall. cbn [arriving writable].
  rewrite H. destruct (respond data w) as [[out | e] w']; reflexivity.
Qed.

(** C6 (amended): over the chunks a connection delivers, the read loop
    stops as soon as the data received so far ends with a newline byte,
    or when the peer closes the connection (an empty [recv]), whichever
    comes first; everything received up to that point is passed to the
    handler as one buffer. *)
Theorem read_loop_stops_at_final_newline (chunks : list bytes) :
  exists k,
    (k <= List.length chunks)%nat
    /\ read_loop (map Recv chunks) [] = Ok (List.concat (firstn k chunks))
    /\ (endswith_nl (List.concat (firstn k chunks)) = true
        \/ nth_error chunks k = Some []
        \/ k = List.length chunks)
    /\ (forall j, (j < k)%nat ->
          endswith_nl (List.concat (firstn j chunks)) = false
          /\ nth_error chunks j <> Some [])
    /\ (forall w : W,
          serve {| arriving := map Recv chunks; writable := true |} w
          = respond (List.concat (firstn k chunks)) w).
Proof.
  destruct (read_loop_from chunks []) as [k [Hk [Hrun [Hstop Hbefore]]]].
  cbn [app] in *.
  exists k. repeat split; try assumption.
  - apply Hbefore. assumption.
  - apply Hbefore. assumption.
  - intros w. apply serve_writable. exact Hrun.
Qed.
End ReadLoop.

(** ** The accept loop *)

Section AcceptLoop.
Context {rt : Runtime} {W : Type} {host : Host W}.

(** Clients served without an exception do not change what the loop does
    with the clients after them. *)
Lemma accept_loop_app (pre rest : list accept_event) (w w1 : W)
    (trace : list (option bytes)) :
  accept_loop pre w = (trace, Listening, w1) ->
  accept_loop (pre ++ rest) w =
  (let '(trace', fin, w2) := accept_loop rest w1 in
   (trace ++ trace', fin, w2)).
Proof.
  revert w trace. induction pre as [| ev pre IH]; intros w trace H.
  - cbn in H. injection H as <- <-. cbn [app].
    destruct (accept_loop rest w) as [[tr fin] w2]. reflexivity.
  - destruct ev as [c |]; cbn [app accept_loop] in *; [| discriminate].
    destruct (serve c w) as [[out | e] w'] eqn:Hserve; [| discriminate].
    destruct (accept_loop pre w') as [[tr0 fin0] w0] eqn:Hpre.
    injection H as <- -> ->.
    rewrite (IH w' tr0 Hpre).
    destruct (accept_loop rest w1) as [[tr fin] w2]. reflexivity.
Qed.

(** A connection whose [recv] or [sendall] raises: the exception leaves
    [serve]. *)
Lemma serve_io_error (c : connection) (w : W) :
  Spec.io_error (Accepted c) -> exists e w', serve c w = (Raise e, w').
Proof.
  intros [[e Hread] | Hwrite]; unfold serve, bind, lift, sendall.
  - rewrite Hread. eauto.
  - rewrite Hwrite.
    destruct (read_loop (arriving c) []) as [data | e]; [| eauto].
    destruct (respond data w) as [[out | e] w']; eauto.
Qed.

(** C4 (amended): failure to bind is fatal, and so is the first error
    while accepting, reading from or writing to a client socket: the
    exception leaves [main], the connection it hit is closed without a
    reply, and no later connection is accepted, whatever clients
    follow. *)
Theorem first_io_error_is_fatal :
  (forall (clients : list accept_event) (w : W),
      main false clients w = ([], Died OSError, w))
  /\ (forall (pre post : list accept_event) (ev : accept_event)
             (w w1 : W) (trace : list (option bytes)),
         accept_loop pre w = (trace, Listening, w1) ->
         Spec.io_error ev ->
         exists e trace' w2,
           main true (pre ++ ev :: post) w = (trace ++ trace', Died e, w2)
           /\ (trace' = [] \/ trace' = [None])).
Proof.
  split; [reflexivity |].
  intros pre post ev w w1 trace Hpre Herr.
  unfold main. rewrite (accept_loop_app pre (ev :: post) w w1 trace Hpre).
  destruct ev as [c |].
  - destruct (serve_io_error c w1 Herr) as [e [w2 Hserve]].
    exists e, [None], w2. cbn [accept_loop]. rewrite Hserve. auto.
  - exists OSError, [], w1. cbn [accept_loop]. auto.
Qed.
End AcceptLoop.

(** ** The usage oracle *)

Section Coercion.
Context {rt : Runtime}.
Local Open Scope N_scope.

Lemma scan_digits_nonneg (s : list N) :
  forall (prev : N) (acc : Z) (n : N) (v : Z) (m : N) (rest : list N),
    scan_digits s prev acc n = Some (v, m, rest) ->
    (0 <= acc)%Z -> (0 <= v)%Z.
Proof.
  induction s as [| c r IH]; intros prev acc n v m rest; cbn [scan_digits].
  - destruct (prev =? 95); [discriminate |]. intros [= <- _ _]. auto.
  - destruct (is_digit c).
    + intros H Hacc. apply (IH _ _ _ _ _ _ H). lia.
    + destruct (c =? 95).
      * destruct (prev =? 95); [discriminate |]. apply IH.
      * destruct (prev =? 95); [discriminate |]. intros [= <- _ _]. auto.
Qed.

Lemma parse_unsigned_nonneg (a : list N) (v : Z) :
  parse_unsigned a = Ok v -> (0 <= v)%Z.
Proof.
  unfold parse_unsigned. destruct a as [| c r]; [discriminate |].
  destruct (c =? 95); [discriminate |].
  destruct (scan_digits (c :: r) 0 0%Z 0) as [[[v' m] rest] |] eqn:Hscan;
    [| discriminate].
  destruct ((m =? 0) || too_many_digits m); [discriminate |].
  destruct (skip_spaces rest); [| discriminate].
  intros [= <-]. apply (scan_digits_nonneg _ _ _ _ _ _ _ Hscan). lia.
Qed.

Lemma skip_spaces_incl (a : list N) (x : N) :
  In x (skip_spaces a) -> In x a.
Proof.
  induction a as [| c r IH]; cbn [skip_spaces]; [auto |].
  destruct (c_isspace c); [| auto]. intros H. right. auto.
Qed.

Lemma ascii_of_minus (c : N) : ascii_of c = Some 45 -> c = 45.
Proof.
  unfold ascii_of. destruct (c <? 128); [congruence |].
  destruct (is_whitespace c); [discriminate |].
  destruct (unicode_decimal c) as [d |]; cbn [option_map];
    [| discriminate].
  intros H. assert (Hd : 48 + d = 45) by congruence. lia.
Qed.

Lemma to_ascii_minus (s : str) (a : list N) :
  to_ascii s = Some a -> In 45 a -> In 45 s.
Proof.
  revert a. induction s as [| c r IH]; intros a; cbn [to_ascii].
  - intros [= <-]. auto.
  - destruct (ascii_of c) as [x |] eqn:Hc; [| discriminate].
    destruct (to_ascii r) as [r' |]; [| discriminate].
    intros [= <-] [Hx | Hin].
    + left. subst x. apply ascii_of_minus. exact Hc.
    + right. apply (IH r' eq_refl Hin).
Qed.

(** A string is coerced to a negative integer only if it has a minus
    sign. *)
Lemma int_of_str_negative (s : str) (z : Z) :
  int_of_str s = Ok z -> (z < 0)%Z -> In 45 s.
Proof.
  unfold int_of_str. destruct (to_ascii s) as [a |] eqn:Ha; [| discriminate].
  destruct (split_sign (skip_spaces a)) as [negative digits] eqn:Hsign.
  destruct (parse_unsigned digits) as [v |] eqn:Hv; [| discriminate].
  apply parse_unsigned_nonneg in Hv. cbn [rbind].
  destruct negative; intros [= <-] Hz; [| lia].
  apply (to_ascii_minus s a Ha). apply skip_spaces_incl.
  unfold split_sign in Hsign.
  destruct (skip_spaces a) as [| c r]; [discriminate |].
  destruct (c =? 43); [discriminate |].
  destruct (c =? 45) eqn:Hc; [| discriminate].
  apply N.eqb_eq in Hc. left. exact Hc.
Qed.

(** [int] yields a negative integer only from a negative total. *)
Lemma int_negative (total : pyval) (z : Z) :
  int total = Ok z -> (z < 0)%Z -> Spec.negative_total total.
Proof.
  destruct total as [| b | n | f | s | l | d]; cbn [int Spec.negative_total];
    try discriminate.
  - destruct b; intros [= <-]; lia.
  - intros [= <-]. auto.
  - destruct f as [sg | sg | | sg m e]; cbn [int_of_float]; try discriminate.
    + intros [= <-]. lia.
    + destruct sg; [auto |]. intros [= <-] Hz.
      assert (0 <= Z.shiftl (Z.pos m) e)%Z by (apply Z.shiftl_nonneg; lia).
      lia.
  - apply int_of_str_negative.
Qed.

Lemma some_eq {A} (x y : A) : Some x = Some y -> x = y.
Proof. congruence. Qed.

(** [int] of a finite float is its value truncated toward zero. *)
Lemma int_of_float_truncates (f : spec_float) (q : Q) :
  Spec.float_value f = Some q -> int_of_float f = Ok (Spec.truncate q).
Proof.
  destruct f as [sg | sg | | sg m e]; cbn [Spec.float_value int_of_float];
    try discriminate.
  - intros H. apply some_eq in H. subst q. reflexivity.
  - intros H. apply some_eq in H. subst q. f_equal.
    assert (Hpow : forall p, (0 < 2 ^ Z.pos p)%Z).
    { intros p. apply Z.pow_pos_nonneg; lia. }
    assert (Hmag : Z.shiftl (Z.pos m) e
                   = Qfloor match e with
                            | Z.neg k => Z.pos m # 2 ^ k
                            | _ => inject_Z (Z.pos m * 2 ^ e)
                            end
                     /\ (0 < match e with
                            | Z.neg k => Z.pos m # 2 ^ k
                            | _ => inject_Z (Z.pos m * 2 ^ e)
                            end)%Q).
    { destruct e as [| p | k]; unfold Qfloor, Qlt, inject_Z, Qnum, Qden.
      - split; [rewrite Z.div_1_r, Z.shiftl_mul_pow2 by lia; reflexivity | lia].
      - split; [rewrite Z.div_1_r, Z.shiftl_mul_pow2 by lia; reflexivity |].
        specialize (Hpow p). nia.
      - split; [| lia].
        change (Z.shiftl (Z.pos m) (Z.neg k))
          with (Z.shiftr (Z.pos m) (Z.pos k)).
        rewrite Z.shiftr_div_pow2, Pos2Z.inj_pow by lia. reflexivity. }
    destruct Hmag as [Hfloor Hpos]. rewrite Hfloor.
    set (mag := match e with
                | Z.neg k => Z.pos m # 2 ^ k
                | _ => inject_Z (Z.pos m * 2 ^ e)
                end) in *.
    unfold Spec.truncate. destruct sg.
    + assert (Hneg : Qle_bool 0 (- mag) = false).
      { destruct (Qle_bool 0 (- mag)) eqn:Hb; [| reflexivity].
        apply Qle_bool_imp_le in Hb. exfalso.
        apply (Qlt_irrefl 0). eapply Qlt_le_trans; [exact Hpos |].
        apply Qopp_le_compat in Hb. rewrite Qopp_involutive in Hb.
        exact Hb. }
      rewrite Hneg. unfold Qceiling.
      destruct mag as [n d]. unfold Qopp, Qfloor, Qnum, Qden.
      rewrite Z.opp_involutive. reflexivity.
    + assert (Hge : Qle_bool 0 mag = true).
      { apply Qle_bool_iff. apply Qlt_le_weak. exact Hpos. }
      rewrite Hge. reflexivity.
Qed.

(** A float strictly between 0 and 1 is truncated to 0. *)
Lemma int_of_float_fraction (f : spec_float) (q : Q) :
  Spec.float_value f = Some q -> (0 < q)%Q -> (q < 1)%Q ->
  int_of_float f = Ok 0%Z.
Proof.
  destruct f as [sg | sg | | sg m e]; cbn [Spec.float_value int_of_float];
    try discriminate; [reflexivity |].
  intros Hq. apply some_eq in Hq. subst q.
  assert (Hpow : forall p, (0 < 2 ^ Z.pos p)%Z).
  { intros p. apply Z.pow_pos_nonneg; lia. }
  destruct sg.
  - intros Hpos _. exfalso. revert Hpos.
    destruct e as [| p | k]; unfold Qlt, Qopp, inject_Z, Qnum, Qden;
      [lia | specialize (Hpow p); nia | lia].
  - intros _ Hlt. f_equal. revert Hlt.
    destruct e as [| p | k]; unfold Qlt, inject_Z, Qnum, Qden.
    + lia.
    + specialize (Hpow p). nia.
    + rewrite Pos2Z.inj_pow. intros Hlt.
      change (Z.shiftl (Z.pos m) (Z.neg k))
        with (Z.shiftr (Z.pos m) (Z.pos k)).
      rewrite Z.shiftr_div_pow2 by lia.
      apply Z.div_small. lia.
Qed.
End Coercion.

Section Oracle.
Context {rt : Runtime} {W : Type} {host : Host W}.

(** The oracle returns: a failure inside it becomes the amount 0. *)
Lemma fetch_usage_run (d : date) (w : W) :
  fetch_usage d w
  = (Ok (Spec.amount (total_usage (fst (upstream d w)))),
     snd (upstream d w)).
Proof.
  unfold fetch_usage. destruct (upstream d w) as [output w'].
  cbn [fst snd]. destruct (total_usage output); reflexivity.
Qed.

Lemma total_usage_dict (obj : list (str * pyval)) :
  total_usage (Ok (PyDict obj))
  = int match dict_lookup obj (lit "total_usage") with
        | Some total => total
        | None => PyInt 0
        end.
Proof. reflexivity. Qed.

(** C7 (amended): [fetch_usage] never signals failure to its caller: it
    returns an integer, 0 when the request, the parsing or the coercion
    failed and [int(total_usage)] otherwise; that integer is negative
    only when the upstream [total_usage] is a negative integer, a float
    with the sign set, or a string with a minus sign. *)
Theorem fetch_usage_amount (d : date) (w : W) :
  exists amount : Z,
    fetch_usage d w = (Ok amount, snd (upstream d w))
    /\ amount = Spec.amount (total_usage (fst (upstream d w)))
    /\ (0 <= amount
        \/ exists obj total,
             fst (upstream d w) = Ok (PyDict obj)
             /\ dict_lookup obj (lit "total_usage") = Some total
             /\ int total = Ok amount
             /\ Spec.negative_total total).
Proof.
  eexists. split; [apply fetch_usage_run |]. split; [reflexivity |].
  destruct (fst (upstream d w)) as [result | e]; [| left; cbn; lia].
  destruct result as [| b | n | f | s | l | obj];
    try (left; cbn; lia).
  rewrite total_usage_dict.
  destruct (dict_lookup obj (lit "total_usage")) as [total |] eqn:Hget;
    [| left; cbn; lia].
  destruct (int total) as [z |] eqn:Hint; [| left; cbn; lia].
  cbn [Spec.amount].
  destruct (Z.le_gt_cases 0 z) as [Hz | Hz]; [left; exact Hz |].
  right. exists obj, total. repeat split; try assumption.
  apply (int_negative total z Hint Hz).
Qed.

(** C9: a [total_usage] that [int] can coerce is accepted, not treated as
    a failure: the string ["123"] gives 123, a float is truncated toward
    zero, so that one strictly between 0 and 1 gives 0, and a body without
    the field gives 0. *)
Theorem fetch_usage_coerces
    (d : date) (w : W) (obj : list (str * pyval)) :
  fst (upstream d w) = Ok (PyDict obj) ->
  (forall total n,
      dict_lookup obj (lit "total_usage") = Some total ->
      int total = Ok n ->
      fst (fetch_usage d w) = Ok n)
  /\ (dict_lookup obj (lit "total_usage") = Some (PyStr (lit "123")) ->
      fst (fetch_usage d w) = Ok 123)
  /\ (forall f q,
         dict_lookup obj (lit "total_usage") = Some (PyFloat f) ->
         Spec.float_value f = Some q ->
         fst (fetch_usage d w) = Ok (Spec.truncate q))
  /\ (forall f q,
         dict_lookup obj (lit "total_usage") = Some (PyFloat f) ->
         Spec.float_value f = Some q -> (0 < q)%Q -> (q < 1)%Q ->
         fst (fetch_usage d w) = Ok 0)
  /\ (dict_lookup obj (lit "total_usage") = None ->
      fst (fetch_usage d w) = Ok 0).
Proof.
  intros Hup.
  assert (Hgen : forall total n,
             dict_lookup obj (lit "total_usage") = Some total ->
             int total = Ok n ->
             fst (fetch_usage d w) = Ok n).
  { intros total n Hget Hint.
    rewrite fetch_usage_run, Hup, total_usage_dict, Hget, Hint.
    reflexivity. }
  split; [exact Hgen |]. split; [| split; [| split]].
  - intros Hget. apply (Hgen _ _ Hget). reflexivity.
  - intros f q Hget Hq. apply (Hgen _ _ Hget).
    cbn [int]. apply (int_of_float_truncates f q Hq).
  - intros f q Hget Hq Hpos Hlt. apply (Hgen _ _ Hget).
    cbn [int]. apply (int_of_float_fraction f q Hq Hpos Hlt).
  - intros Hget.
    rewrite fetch_usage_run, Hup, total_usage_dict, Hget. reflexivity.
Qed.
End Oracle.

(** * Runs on the simulated host *)

Import Sim.

(** ** The test suite of the aggregator *)

(** [test_check_recent_costs_true]: the stub returns 123 for both days. *)
Example test_check_recent_costs_true :
  fst (check_recent_costs (fun _ => ret 123) (answering [])) = Ok true.
Proof. reflexivity. Qed.

(** [test_check_recent_costs_false]: the stub returns 0 for both days. *)
Example test_check_recent_costs_false :
  fst (check_recent_costs (fun _ => ret 0) (answering [])) = Ok false.
Proof. reflexivity. Qed.

(** [test_check_recent_costs_partial]: 100 today, 0 yesterday, popped from
    a shared list. *)
Example test_check_recent_costs_partial :
  check_recent_costs pop_result (popping [100; 0]) = (Ok true, popping []).
Proof. reflexivity. Qed.

(** [test_check_recent_costs_api_error]: the stub raises. *)
Example test_check_recent_costs_api_error :
  fst (check_recent_costs
         (fun _ => lift (Raise (Exception "Test API error")))
         (answering []))
  = Ok false.
Proof. reflexivity. Qed.

(** ** The service, end to end *)

(** Two clients in a row: each gets a verdict computed from its own two
    upstream calls. *)
Example two_status_requests :
  main true
    [client [line "STATUS"]; client [ascii_bytes "sta"; line "tus"]]
    (answering [usage (PyInt 0); usage (PyInt 7);
                usage (PyInt 0); Raise OSError])
  = ([Some (line "TRUE"); Some (line "FALSE")], Listening, answering []).
Proof. vm_compute. reflexivity. Qed.

Example ping_is_unknown :
  fst (respond (line "PING") (answering [])) = Ok (line "ERR Unknown Command").
Proof. reflexivity. Qed.

(** The long s (U+017F) upper-cases to [S], so this line too is the
    command [STATUS]. *)
Example long_s_status :
  command_of ([xc5; xbf] ++ line "tatus") = Ok (lit "STATUS").
Proof. reflexivity. Qed.

(** ** Where the code departs from the specification's wording *)

(** C3, counterexample: the buffer [b'\xff\n'] is not valid UTF-8; no reply
    line comes back, the decoding error leaves [main] and the client's
    connection is closed with nothing written. *)
Lemma respond_invalid_utf8 :
  respond [xff; x0a] (answering []) = (Raise UnicodeDecodeError, answering [])
  /\ ~ (exists out w',
          respond [xff; x0a] (answering []) = (Ok out, w')
          /\ In out Spec.reply_lines)
  /\ main true [client [[xff; x0a]]] (answering [])
     = ([None], Died UnicodeDecodeError, answering []).
Proof.
  split; [reflexivity |]. split; [| reflexivity].
  intros [out [w' [H _]]]. discriminate H.
Qed.

(** C4, counterexample: the first client's [recv] raises; the exception
    leaves [main], and the second client, whose [STATUS] is waiting, is
    never accepted. *)
Lemma recv_error_stops_the_service :
  main true [broken_client; client [line "STATUS"]]
    (answering [usage (PyInt 5); usage (PyInt 5)])
  = ([None], Died OSError, answering [usage (PyInt 5); usage (PyInt 5)]).
Proof. reflexivity. Qed.

(** C5, counterexample: on [b' STATUS\n'] stripping trailing whitespace
    only leaves the token [" STATUS"], to be answered with
    [ERR Unknown Command]; the code strips the leading blank as well and
    answers with the verdict. *)
Lemma leading_blank_is_stripped :
  Spec.command_trailing_only (line " STATUS") = Ok (lit " STATUS")
  /\ fst (Spec.handle_trailing_only (line " STATUS")
            (answering [usage (PyInt 5); usage (PyInt 0)]))
     = Ok ERR_line
  /\ command_of (line " STATUS") = Ok (lit "STATUS")
  /\ fst (handle (line " STATUS")
            (answering [usage (PyInt 5); usage (PyInt 0)]))
     = Ok TRUE_line.
Proof. repeat split; reflexivity. Qed.

(** C6, counterexample: the first chunk [b'A\nB'] has a newline in it but
    does not end with one; the loop reads on and hands over [b'A\nBC\n'],
    not [b'A\nB']. *)
Lemma newline_inside_chunk_reads_on :
  read_loop [Recv (line "A" ++ ascii_bytes "B"); Recv (line "C")] []
  = Ok (line "A" ++ line "BC")
  /\ Spec.read_until_newline_seen
       [Recv (line "A" ++ ascii_bytes "B"); Recv (line "C")] []
     = Ok (line "A" ++ ascii_bytes "B").
Proof. split; reflexivity. Qed.

(** C7, counterexample: the body [{"total_usage": -5}] makes [fetch_usage]
    return -5. *)
Lemma negative_total_usage_is_returned :
  fst (fetch_usage 20396 (answering [usage (PyInt (-5))])) = Ok (-5).
Proof. reflexivity. Qed.

(** ** Instances of the theorems that have hypotheses *)

Lemma check_recent_costs_sum_witness :
  exists verdict,
    check_recent_costs (fun _ => ret 123) (answering [])
    = (Ok verdict, answering [])
    /\ (verdict = true <-> 123 + 123 > 0).
Proof.
  apply (check_recent_costs_sum (fun _ => ret 123)
           (answering []) (answering []) (answering [])
           (answering []) (answering []) noon noon 123 123);
    first [lia | reflexivity].
Defined.

Lemma check_recent_costs_isolates_failures_witness :
  check_recent_costs pop_result (popping [5])
  = (Ok (Spec.amount (Ok 5)
         + Spec.amount (Raise (Exception "pop from empty list")) >? 0),
     popping []).
Proof.
  apply (check_recent_costs_isolates_failures pop_result
           (popping [5]) (popping [5]) (popping [5]) (popping []) (popping [])
           noon noon (Ok 5) (Raise (Exception "pop from empty list")));
    reflexivity.
Defined.

Lemma first_io_error_is_fatal_witness :
  exists e trace' w2,
    main true ([client [line "PING"]] ++ broken_client :: [client [line "STATUS"]])
      (answering [])
    = ([Some (line "ERR Unknown Command")] ++ trace', Died e, w2)
    /\ (trace' = [] \/ trace' = [None]).
Proof.
  apply (proj2 first_io_error_is_fatal
           [client [line "PING"]] [client [line "STATUS"]] broken_client
           (answering []) (answering [])
           [Some (line "ERR Unknown Command")]).
  - reflexivity.
  - left. exists OSError. reflexivity.
Defined.

Lemma respond_by_command_witness :
  command_of (line "status") = Ok (upper (strip (lit "status" ++ [10%N])))
  /\ (upper (strip (lit "status" ++ [10%N])) = lit "STATUS" ->
      exists verdict w',
        check_recent_costs fetch_usage (answering []) = (Ok verdict, w')
        /\ respond (line "status") (answering [])
           = (Ok (if verdict : bool then line "TRUE" else line "FALSE"), w'))
  /\ (upper (strip (lit "status" ++ [10%N])) <> lit "STATUS" ->
      respond (line "status") (answering [])
      = (Ok (line "ERR Unknown Command"), answering [])).
Proof.
  apply (proj1 respond_by_command
           (line "status") (lit "status" ++ [10%N]) (answering [])).
  reflexivity.
Defined.

Lemma respond_status_any_casing_witness :
  command_of ([xc2; x85; x09] ++ ascii_bytes "sTaTuS"
              ++ [xe3; x80; x80; x0d; x0a])
  = Ok (lit "STATUS")
  /\ respond ([xc2; x85; x09] ++ ascii_bytes "sTaTuS"
              ++ [xe3; x80; x80; x0d; x0a])
       (answering [usage (PyInt 1)])
     = respond (line "STATUS") (answering [usage (PyInt 1)]).
Proof.
  apply (respond_status_any_casing
           [xc2; x85; x09] (ascii_bytes "sTaTuS")
           [xe3; x80; x80; x0d; x0a]
           (answering [usage (PyInt 1)])).
  - reflexivity.
  - reflexivity.
  - unfold Spec.casing_of_status.
    repeat (apply Forall2_cons;
            [first [left; reflexivity | right; reflexivity] |]).
    apply Forall2_nil.
Defined.

Lemma fetch_usage_coerces_witness :
  fst (fetch_usage 20396 (answering [usage (PyStr (lit "123"))])) = Ok 123.
Proof.
  apply (fetch_usage_coerces 20396 (answering [usage (PyStr (lit "123"))])
           [(lit "total_usage", PyStr (lit "123"))]).
  - reflexivity.
  - reflexivity.
Defined.

(** * Further properties of the breaker *)

(** ** The dates that are queried *)

Section Dates.
Context {rt : Runtime} {W : Type} {host : Host W}.

Lemma date_of_day_before (t : instant) :
  date_of (t - one_day) = date_of t - 1.
Proof.
  unfold date_of.
  replace (t - one_day) with (t + (-1) * one_day) by lia.
  rewrite Z.div_add by (unfold one_day; lia). lia.
Qed.

(** X1: when the two clock reads of [check_recent_costs] fall on the same
    UTC day, the first fetch is for that day and the second for the day
    before it. *)
Theorem fetches_day_and_day_before
    (fetch : date -> M W Z) (w w1 w2 : W) (t1 t2 : instant) :
  utcnow w = (t1, w1) ->
  utcnow w1 = (t2, w2) ->
  date_of t2 = date_of t1 ->
  check_recent_costs fetch w =
  bind (catch (fetch (date_of t1)) (fun _ => ret 0)) (fun cost_today =>
  bind (catch (fetch (date_of t1 - 1)) (fun _ => ret 0)) (fun cost_yesterday =>
  ret (cost_today + cost_yesterday >? 0))) w2.
Proof.
  intros Hnow1 Hnow2 Hday. unfold check_recent_costs.
  rewrite Hnow1, Hnow2, date_of_day_before, Hday. reflexivity.
Qed.

(** X2: when midnight UTC passes between the two clock reads, "yesterday"
    is taken from the later read, so both fetches are for the same day,
    the one of the first read; the day before it is not queried. *)
Theorem fetches_same_day_twice_across_midnight
    (fetch : date -> M W Z) (w w1 w2 : W) (t1 t2 : instant) :
  utcnow w = (t1, w1) ->
  utcnow w1 = (t2, w2) ->
  date_of t2 = date_of t1 + 1 ->
  check_recent_costs fetch w =
  bind (catch (fetch (date_of t1)) (fun _ => ret 0)) (fun cost_today =>
  bind (catch (fetch (date_of t1)) (fun _ => ret 0)) (fun cost_yesterday =>
  ret (cost_today + cost_yesterday >? 0))) w2.
Proof.
  intros Hnow1 Hnow2 Hday. unfold check_recent_costs.
  rewrite Hnow1, Hnow2, date_of_day_before, Hday.
  replace (date_of t1 + 1 - 1) with (date_of t1) by lia. reflexivity.
Qed.
End Dates.

(** ** The aggregator on the real oracle *)

Section EndToEnd.
Context {rt : Runtime} {W : Type} {host : Host W}.

(** X3: a [STATUS] verdict costs exactly two upstream calls, the one for
    today and then the one for yesterday in the world the first left;
    the verdict is whether the two totals, each 0 when its call, its JSON
    or its coercion failed, add up to more than 0. *)
Theorem verdict_from_two_upstream_calls (w : W) :
  let w1 := snd (utcnow w) in
  let w2 := snd (utcnow w1) in
  let first := upstream (date_of (fst (utcnow w))) w2 in
  let second :=
    upstream (date_of (fst (utcnow w1) - one_day)) (snd first) in
  check_recent_costs fetch_usage w =
  (Ok (Spec.amount (total_usage (fst first))
       + Spec.amount (total_usage (fst second)) >? 0),
   snd second).
Proof.
  cbv zeta. rewrite check_recent_costs_run. cbv zeta.
  rewrite !fetch_usage_run. cbn [fst snd]. reflexivity.
Qed.

Lemma total_usage_integer (output : result pyval) (n : Z) :
  Traffic.integer_total output n -> total_usage output = Ok n.
Proof.
  intros [obj [-> Hget]]. rewrite total_usage_dict, Hget. reflexivity.
Qed.

(** X4: when the two bodies carry the integers [a] and [b], a line whose
    command is [STATUS] is answered [TRUE] exactly when [a + b > 0]: the
    totals are added as they come, so a negative total cancels a positive
    one. *)
Theorem status_reply_on_integer_totals
    (data : bytes) (w : W) (a b : Z) :
  let w1 := snd (utcnow w) in
  let w2 := snd (utcnow w1) in
  let first := upstream (date_of (fst (utcnow w))) w2 in
  let second :=
    upstream (date_of (fst (utcnow w1) - one_day)) (snd first) in
  command_of data = Ok (lit "STATUS") ->
  Traffic.integer_total (fst first) a ->
  Traffic.integer_total (fst second) b ->
  respond data w
  = (Ok (if (a + b >? 0) then line "TRUE" else line "FALSE"), snd second)
  /\ (0 < a -> b <= - a -> fst (respond data w) = Ok (line "FALSE")).
Proof.
  cbv zeta. intros Hcmd Ha Hb.
  destruct (respond_status data w Hcmd) as [v [w' [Hv Hr]]].
  rewrite verdict_from_two_upstream_calls in Hv. cbv zeta in Hv.
  rewrite (total_usage_integer _ a Ha), (total_usage_integer _ b Hb) in Hv.
  cbn [Spec.amount] in Hv. injection Hv as <- <-.
  split; [exact Hr |].
  intros Hpos Hneg. rewrite Hr. cbn [fst].
  assert (Hle : (a + b >? 0) = false).
  { rewrite Z.gtb_ltb. apply Z.ltb_ge. lia. }
  rewrite Hle. reflexivity.
Qed.

(** X5: when both usage queries fail, in whatever way (the request, the
    JSON, a body that is no object, a total that is no number), a line
    whose command is [STATUS] is answered [FALSE]; no error reaches the
    client. *)
Theorem status_false_when_both_queries_fail
    (data : bytes) (w : W) (e1 e2 : exn) :
  let w1 := snd (utcnow w) in
  let w2 := snd (utcnow w1) in
  let first := upstream (date_of (fst (utcnow w))) w2 in
  let second :=
    upstream (date_of (fst (utcnow w1) - one_day)) (snd first) in
  command_of data = Ok (lit "STATUS") ->
  total_usage (fst first) = Raise e1 ->
  total_usage (fst second) = Raise e2 ->
  respond data w = (Ok (line "FALSE"), snd second).
Proof.
  cbv zeta. intros Hcmd H1 H2.
  destruct (respond_status data w Hcmd) as [v [w' [Hv Hr]]].
  rewrite verdict_from_two_upstream_calls in Hv. cbv zeta in Hv.
  rewrite H1, H2 in Hv. cbn [Spec.amount] in Hv.
  injection Hv as <- <-. exact Hr.
Qed.

Lemma int_not_a_number (total : pyval) :
  Traffic.not_a_number total -> exists e, int total = Raise e.
Proof.
  intros H.
  destruct total as [| b | n | f | s | l | d]; cbn in H; try contradiction;
    try (cbn; eauto).
  destruct f; cbn in H; try contradiction; cbn; eauto.
Qed.

(** X6: [fetch_usage] gives 0 when the request or the JSON parsing raised,
    when the body is valid JSON but no object (a list, a string, a number,
    [null]), and when [total_usage] is there but [int] refuses it, as it
    does [null], a list, an object, NaN and the infinities. *)
Theorem fetch_usage_zero_cases (d : date) (w : W) :
  (forall e, fst (upstream d w) = Raise e -> fst (fetch_usage d w) = Ok 0)
  /\ (forall v,
         fst (upstream d w) = Ok v ->
         (forall obj, v <> PyDict obj) ->
         fst (fetch_usage d w) = Ok 0)
  /\ (forall obj total e,
         fst (upstream d w) = Ok (PyDict obj) ->
         dict_lookup obj (lit "total_usage") = Some total ->
         int total = Raise e ->
         fst (fetch_usage d w) = Ok 0)
  /\ (forall obj total,
         fst (upstream d w) = Ok (PyDict obj) ->
         dict_lookup obj (lit "total_usage") = Some total ->
         Traffic.not_a_number total ->
         fst (fetch_usage d w) = Ok 0).
Proof.
  assert (Hint : forall obj total e,
             fst (upstream d w) = Ok (PyDict obj) ->
             dict_lookup obj (lit "total_usage") = Some total ->
             int total = Raise e ->
             fst (fetch_usage d w) = Ok 0).
  { intros obj total e Hup Hget He.
    rewrite fetch_usage_run, Hup, total_usage_dict, Hget, He. reflexivity. }
  split; [| split; [| split]].
  - intros e Hup. rewrite fetch_usage_run, Hup. reflexivity.
  - intros v Hup Hno. rewrite fetch_usage_run, Hup. cbn [fst].
    destruct v; try reflexivity. exfalso. eapply Hno. reflexivity.
  - exact Hint.
  - intros obj total Hup Hget Hnan.
    destruct (int_not_a_number total Hnan) as [e He].
    exact (Hint obj total e Hup Hget He).
Qed.
End EndToEnd.

(** ** Lines in pieces *)

Section Pieces.
Context {rt : Runtime} {W : Type} {host : Host W}.

Lemma contains_nl_app (a b : bytes) :
  Spec.contains_nl (a ++ b) = Spec.contains_nl a || Spec.contains_nl b.
Proof. unfold Spec.contains_nl. apply existsb_app. Qed.

Lemma newline_free_no_end (data : bytes) :
  Spec.contains_nl data = false -> endswith_nl data = false.
Proof.
  intros H. unfold endswith_nl.
  destruct (rev data) as [| x r] eqn:Hrev; [reflexivity |].
  assert (Hin : In x data).
  { apply in_rev. rewrite Hrev. left. reflexivity. }
  destruct (N.eqb_spec (b2n x) 10) as [Hx | Hx]; [| reflexivity].
  assert (Hex : Spec.contains_nl data = true).
  { unfold Spec.contains_nl. apply existsb_exists. exists x.
    split; [exact Hin | apply N.eqb_eq; exact Hx]. }
  congruence.
Qed.

Lemma endswith_nl_snoc (body : bytes) : endswith_nl (body ++ [x0a]) = true.
Proof. unfold endswith_nl. rewrite rev_app_distr. reflexivity. Qed.

(** Non-empty chunks with no newline in them are all read, and the loop
    goes on with what follows. *)
Lemma read_loop_skip (chunks : list bytes) (tail : list recv_event) :
  forall data : bytes,
    Forall (fun chunk => chunk <> []) chunks ->
    Spec.contains_nl (data ++ List.concat chunks) = false ->
    read_loop (map Recv chunks ++ tail) data
    = read_loop tail (data ++ List.concat chunks).
Proof.
  induction chunks as [| chunk rest IH]; intros data Hne Hfree.
  - cbn [map app List.concat]. rewrite app_nil_r. reflexivity.
  - inversion Hne as [| ? ? Hchunk Hrest]; subst.
    cbn [map app List.concat] in *.
    rewrite read_loop_eq.
    assert (Hdata : endswith_nl data = false).
    { apply newline_free_no_end. rewrite contains_nl_app in Hfree.
      apply orb_false_iff in Hfree. apply Hfree. }
    rewrite Hdata.
    destruct chunk as [| x more]; [congruence |].
    rewrite app_assoc in Hfree. rewrite (IH _ Hrest Hfree).
    rewrite app_assoc. reflexivity.
Qed.

(** X7: a line that arrives in any number of non-empty pieces, with its
    only newline at the very end, is handed to the handler whole; what the
    client sends or does after the newline (more bytes, an error on the
    socket) is not looked at. *)
Theorem line_in_pieces_is_reassembled
    (chunks : list bytes) (body : bytes) (after : list recv_event) :
  Forall (fun chunk => chunk <> []) chunks ->
  List.concat chunks = body ++ [x0a] ->
  Spec.contains_nl body = false ->
  read_loop (map Recv chunks ++ after) [] = Ok (body ++ [x0a]).
Proof.
  intros Hne Hcat Hfree.
  destruct (exists_last (l := chunks)) as [init [final Hsplit]].
  { intros ->. destruct body; discriminate. }
  subst chunks. apply Forall_app in Hne. destruct Hne as [Hinit Hfinal].
  inversion Hfinal as [| ? ? Hnonempty _]; subst.
  rewrite concat_app in Hcat. cbn [List.concat] in Hcat.
  rewrite app_nil_r in Hcat.
  destruct (exists_last Hnonempty) as [front [z Hz]]. subst final.
  rewrite app_assoc in Hcat. apply app_inj_tail in Hcat.
  destruct Hcat as [Hbody ->].
  rewrite map_app, <- app_assoc. cbn [map app].
  assert (Hpre : Spec.contains_nl (List.concat init) = false).
  { rewrite <- Hbody, contains_nl_app in Hfree.
    apply orb_false_iff in Hfree. apply Hfree. }
  rewrite (read_loop_skip init _ [] Hinit Hpre). cbn [app].
  rewrite read_loop_eq, (newline_free_no_end _ Hpre).
  destruct (front ++ [x0a]) as [| y more] eqn:Hfinal'.
  { destruct front; discriminate. }
  rewrite <- Hfinal', app_assoc, Hbody.
  rewrite read_loop_eq, endswith_nl_snoc. reflexivity.
Qed.

(** X8: bytes that arrive with no newline in them are kept until the peer
    closes, and are then handled as they are; if a [recv] raises instead,
    they are dropped and the error leaves the read loop. *)
Theorem unterminated_line (chunks : list bytes) (after : list recv_event) :
  Forall (fun chunk => chunk <> []) chunks ->
  Spec.contains_nl (List.concat chunks) = false ->
  read_loop (map Recv chunks) [] = Ok (List.concat chunks)
  /\ read_loop (map Recv chunks ++ Recv [] :: after) []
     = Ok (List.concat chunks)
  /\ read_loop (map Recv chunks ++ RecvError :: after) [] = Raise OSError.
Proof.
  intros Hne Hfree.
  pose proof (newline_free_no_end _ Hfree) as Hend.
  split; [| split].
  - rewrite <- (app_nil_r (map Recv chunks)).
    rewrite (read_loop_skip chunks [] [] Hne Hfree). cbn [app].
    rewrite read_loop_eq, Hend. reflexivity.
  - rewrite (read_loop_skip chunks _ [] Hne Hfree). cbn [app].
    rewrite read_loop_eq, Hend. reflexivity.
  - rewrite (read_loop_skip chunks _ [] Hne Hfree). cbn [app].
    rewrite read_loop_eq, Hend. reflexivity.
Qed.
End Pieces.

(** ** Runs of the accept loop *)

Section Runs.
Context {rt : Runtime} {W : Type} {host : Host W}.

(** A buffer that decodes is answered. *)
Lemma respond_decodable (data : bytes) (text : str) (w : W) :
  decode_utf8 data = Ok text ->
  exists out w', respond data w = (Ok out, w') /\ In out Spec.reply_lines.
Proof.
  intros Hd.
  assert (Hc : command_of data = Ok (upper (strip text))).
  { unfold command_of. rewrite Hd. reflexivity. }
  destruct (str_eqb (upper (strip text)) (lit "STATUS")) eqn:Heq.
  - apply str_eqb_eq in Heq. rewrite Heq in Hc.
    destruct (respond_status data w Hc) as [v [w' [_ Hr]]].
    eexists. exists w'. split; [exact Hr |].
    unfold Spec.reply_lines. destruct v; cbn [In]; auto.
  - apply str_eqb_neq in Heq.
    exists (line "ERR Unknown Command"), w.
    split; [exact (respond_unknown data _ w Hc Heq) |].
    unfold Spec.reply_lines. cbn [In]. auto.
Qed.

(** Whatever [respond] returns is one of the three lines. *)
Lemma respond_ok_reply (data out : bytes) (w w' : W) :
  respond data w = (Ok out, w') -> In out Spec.reply_lines.
Proof.
  intros H. destruct (decode_utf8 data) as [text | e] eqn:Hd.
  - destruct (respond_decodable data text w Hd) as [out' [w'' [Hr Hin]]].
    rewrite Hr in H. injection H as <- _. exact Hin.
  - rewrite (respond_undecodable data e w Hd) in H. discriminate.
Qed.

Lemma serve_ok_reply (c : connection) (out : bytes) (w w' : W) :
  serve c w = (Ok out, w') -> In out Spec.reply_lines.
Proof.
  unfold serve, bind, lift, sendall.
  destruct (read_loop (arriving c) []) as [data | e]; [| discriminate].
  destruct (respond data w) as [[out' | e] w''] eqn:Hr; [| discriminate].
  destruct (writable c); [| discriminate].
  intros [= <- _]. exact (respond_ok_reply data out' w w'' Hr).
Qed.

Lemma serve_healthy (c : connection) (w : W) :
  Traffic.healthy (Accepted c) ->
  exists out w', serve c w = (Ok out, w').
Proof.
  intros [Hw [data [text [Hread Hd]]]].
  destruct (respond_decodable data text w Hd) as [out [w' [Hr _]]].
  exists out, w'. unfold serve, bind, lift, sendall.
  rewrite Hread, Hr, Hw. reflexivity.
Qed.

(** X9: when every client is accepted, sends bytes that arrive without an
    error and decode as UTF-8, and can be written to, each of them gets
    one of the three reply lines, in the order of arrival, and the service
    is still listening afterwards. *)
Theorem healthy_clients_are_all_served
    (clients : list accept_event) (w : W) :
  Forall Traffic.healthy clients ->
  exists trace w',
    main true clients w = (trace, Listening, w')
    /\ List.length trace = List.length clients
    /\ Forall Traffic.reply_entry trace.
Proof.
  unfold main. revert w.
  induction clients as [| ev rest IH]; intros w Hall.
  - exists [], w. cbn. auto.
  - inversion Hall as [| ? ? Hev Hrest]; subst.
    destruct ev as [c |]; [| contradiction].
    destruct (serve_healthy c w Hev) as [out [w1 Hserve]].
    destruct (IH w1 Hrest) as [trace [w' [Hrun [Hlen Hreplies]]]].
    exists (Some out :: trace), w'. cbn [accept_loop].
    rewrite Hserve, Hrun. cbn [List.length]. rewrite Hlen.
    split; [reflexivity |]. split; [reflexivity |].
    constructor; [| exact Hreplies].
    exists out. split; [reflexivity |].
    exact (serve_ok_reply c out w w1 Hserve).
Qed.

Lemma accept_loop_shape (clients : list accept_event) :
  forall (w w' : W) (trace : list (option bytes)) (fin : final),
    accept_loop clients w = (trace, fin, w') ->
    exists served : list bytes,
      Forall (fun out => In out Spec.reply_lines) served
      /\ match fin with
         | Listening =>
           trace = map Some served
           /\ List.length served = List.length clients
         | Died _ =>
           (trace = map Some served \/ trace = map Some served ++ [None])
           /\ (List.length served < List.length clients)%nat
         end.
Proof.
  induction clients as [| ev rest IH]; intros w w' trace fin H.
  - cbn in H. injection H as <- <- _. exists []. cbn. auto.
  - destruct ev as [c |]; cbn [accept_loop] in H.
    + destruct (serve c w) as [[out | e] w1] eqn:Hserve.
      * destruct (accept_loop rest w1) as [[tr fin'] w2] eqn:Hrest.
        injection H as <- <- <-.
        destruct (IH _ _ _ _ Hrest) as [served [Hin Hshape]].
        exists (out :: served). split.
        { constructor; [exact (serve_ok_reply c out w w1 Hserve) | exact Hin]. }
        destruct fin' as [| e]; cbn [map List.length app].
        { destruct Hshape as [-> ->]. auto. }
        destruct Hshape as [[-> | ->] Hlt]; (split; [auto | lia]).
      * injection H as <- <- _. exists []. cbn. split; [constructor |].
        split; [auto | lia].
    + injection H as <- <- _. exists []. cbn. split; [constructor |].
      split; [auto | lia].
Qed.

(** X10: in every run of [main], the clients hear nothing but reply lines:
    the trace is a run of such lines, one per client served, followed by
    at most one connection closed without a reply, and that only when
    [main] has died; when it dies, at least one client was left unserved
    (or the bind had failed), and when it is still listening, every client
    got its line. *)
Theorem main_trace_shape
    (bindable : bool) (clients : list accept_event) (w w' : W)
    (trace : list (option bytes)) (fin : final) :
  main bindable clients w = (trace, fin, w') ->
  exists served : list bytes,
    Forall (fun out => In out Spec.reply_lines) served
    /\ match fin with
       | Listening =>
         trace = map Some served
         /\ List.length served = List.length clients
       | Died _ =>
         (trace = map Some served \/ trace = map Some served ++ [None])
         /\ ((List.length served < List.length clients)%nat
             \/ bindable = false)
       end.
Proof.
  unfold main. destruct bindable.
  - intros H. destruct (accept_loop_shape clients _ _ _ _ H)
      as [served [Hin Hshape]].
    exists served. split; [exact Hin |].
    destruct fin; [exact Hshape |].
    destruct Hshape as [Htrace Hlt]. auto.
  - intros [= <- <- _]. exists []. cbn. auto.
Qed.

(** X11: a client whose command is not [STATUS] is answered without a
    clock read or an upstream call: the world is as it was, and the
    clients after it are served exactly as if it had not come. *)
Theorem unknown_command_is_transparent
    (c : connection) (rest : list accept_event) (data : bytes)
    (command : str) (w : W) :
  read_loop (arriving c) [] = Ok data ->
  command_of data = Ok command ->
  command <> lit "STATUS" ->
  writable c = true ->
  serve c w = (Ok (line "ERR Unknown Command"), w)
  /\ accept_loop (Accepted c :: rest) w =
     (let '(trace, fin, w') := accept_loop rest w in
      (Some (line "ERR Unknown Command") :: trace, fin, w')).
Proof.
  intros Hread Hcmd Hne Hw.
  assert (Hserve : serve c w = (Ok (line "ERR Unknown Command"), w)).
  { unfold serve, bind, lift, sendall.
    rewrite Hread, (respond_unknown data command w Hcmd Hne), Hw.
    reflexivity. }
  split; [exact Hserve |].
  cbn [accept_loop]. rewrite Hserve. reflexivity.
Qed.
End Runs.

(** ** UTF-8, there and back *)

Section Utf8.
Local Open Scope N_scope.

Ltac div_lia := zify; Z.to_euclidean_division_equations; lia.

Lemma b2n_n2b (n : N) : n < 256 -> b2n (n2b n) = n.
Proof.
  intros Hn. unfold b2n, n2b.
  destruct (Byte.of_N n) as [x |] eqn:Hx.
  - apply Byte.to_of_N. exact Hx.
  - apply Byte.of_N_None_iff in Hx. lia.
Qed.

Lemma n2b_b2n (x : byte) : n2b (b2n x) = x.
Proof. unfold b2n, n2b. rewrite Byte.of_to_N. reflexivity. Qed.

Lemma b2n_bound (x : byte) : b2n x < 256.
Proof. unfold b2n. pose proof (Byte.to_N_bounded x). lia. Qed.

Lemma between_true (lo hi c : N) :
  between lo hi c = true <-> lo <= c /\ c <= hi.
Proof. unfold between. rewrite andb_true_iff, !N.leb_le. reflexivity. Qed.

Lemma between_false (lo hi c : N) :
  between lo hi c = false <-> c < lo \/ hi < c.
Proof.
  unfold between. rewrite andb_false_iff, !N.leb_gt. reflexivity.
Qed.

Lemma ok_eq {A} (x y : A) : Ok x = Ok y -> x = y.
Proof. congruence. Qed.

(** The bytes of one encoded code point decode to it. *)
Lemma decode_encode_char (c : N) (bs rest : bytes) :
  encode_char c = Ok bs ->
  decode_utf8 (bs ++ rest)
  = rbind (decode_utf8 rest) (fun s => Ok (c :: s)).
Proof.
  unfold encode_char.
  destruct (N.ltb_spec c 128) as [H1 | H1].
  { intros Hbs; apply ok_eq in Hbs; subst bs. cbn [app decode_utf8]. cbv zeta.
    rewrite b2n_n2b by div_lia.
    replace (c <? 128) with true by (symmetry; apply N.ltb_lt; div_lia).
    reflexivity. }
  destruct (N.ltb_spec c 2048) as [H2 | H2].
  { intros Hbs; apply ok_eq in Hbs; subst bs. cbn [app decode_utf8]. cbv zeta.
    rewrite !b2n_n2b by div_lia.
    replace (192 + c / 64 <? 128) with false
      by (symmetry; apply N.ltb_ge; div_lia).
    replace (between 194 223 (192 + c / 64)) with true
      by (symmetry; apply between_true; div_lia).
    replace (is_cont (128 + c mod 64)) with true
      by (symmetry; apply between_true; div_lia).
    unfold low6.
    replace ((192 + c / 64 - 192) * 64 + (128 + c mod 64 - 128)) with c
      by div_lia.
    reflexivity. }
  destruct (N.ltb_spec c 65536) as [H3 | H3].
  { destruct (between 55296 57343 c) eqn:Hsur; [discriminate |].
    apply between_false in Hsur.
    intros Hbs; apply ok_eq in Hbs; subst bs. cbn [app decode_utf8]. cbv zeta.
    rewrite !b2n_n2b by div_lia.
    replace (224 + c / 4096 <? 128) with false
      by (symmetry; apply N.ltb_ge; div_lia).
    replace (between 194 223 (224 + c / 4096)) with false
      by (symmetry; apply between_false; div_lia).
    replace (between 224 239 (224 + c / 4096)) with true
      by (symmetry; apply between_true; div_lia).
    replace (is_cont (128 + c mod 64)) with true
      by (symmetry; apply between_true; div_lia).
    replace ((if 224 + c / 4096 =? 224
              then between 160 191 (128 + (c / 64) mod 64)
              else if 224 + c / 4096 =? 237
                   then between 128 159 (128 + (c / 64) mod 64)
                   else is_cont (128 + (c / 64) mod 64)))
      with true.
    2:{ symmetry.
        destruct (N.eqb_spec (224 + c / 4096) 224);
          [apply between_true; div_lia |].
        destruct (N.eqb_spec (224 + c / 4096) 237);
          apply between_true; div_lia. }
    cbn [andb]. unfold low6.
    replace ((224 + c / 4096 - 224) * 4096
             + (128 + (c / 64) mod 64 - 128) * 64
             + (128 + c mod 64 - 128)) with c by div_lia.
    reflexivity. }
  destruct (N.ltb_spec c 1114112) as [H4 | H4]; [| discriminate].
  intros Hbs; apply ok_eq in Hbs; subst bs. cbn [app decode_utf8]. cbv zeta.
  rewrite !b2n_n2b by div_lia.
  replace (240 + c / 262144 <? 128) with false
    by (symmetry; apply N.ltb_ge; div_lia).
  replace (between 194 223 (240 + c / 262144)) with false
    by (symmetry; apply between_false; div_lia).
  replace (between 224 239 (240 + c / 262144)) with false
    by (symmetry; apply between_false; div_lia).
  replace (between 240 244 (240 + c / 262144)) with true
    by (symmetry; apply between_true; div_lia).
  replace (is_cont (128 + c mod 64)) with true
    by (symmetry; apply between_true; div_lia).
  replace (is_cont (128 + (c / 64) mod 64)) with true
    by (symmetry; apply between_true; div_lia).
  replace ((if 240 + c / 262144 =? 240
            then between 144 191 (128 + (c / 4096) mod 64)
            else if 240 + c / 262144 =? 244
                 then between 128 143 (128 + (c / 4096) mod 64)
                 else is_cont (128 + (c / 4096) mod 64)))
    with true.
  2:{ symmetry.
      destruct (N.eqb_spec (240 + c / 262144) 240);
        [apply between_true; div_lia |].
      destruct (N.eqb_spec (240 + c / 262144) 244);
        apply between_true; div_lia. }
  cbn [andb]. unfold low6.
  replace ((240 + c / 262144 - 240) * 262144
           + (128 + (c / 4096) mod 64 - 128) * 4096
           + (128 + (c / 64) mod 64 - 128) * 64
           + (128 + c mod 64 - 128)) with c by div_lia.
  reflexivity.
Qed.

(** X12: whatever [encode("utf-8")] produces decodes back to the same
    text: the two codecs the handler uses around a reply agree. *)
Theorem decode_encode_utf8 (s : str) (data : bytes) :
  encode_utf8 s = Ok data -> decode_utf8 data = Ok s.
Proof.
  revert data. induction s as [| c r IH]; intros data; cbn [encode_utf8].
  - intros [= <-]. reflexivity.
  - destruct (encode_char c) as [bs |] eqn:Hc; [| discriminate].
    destruct (encode_utf8 r) as [rest |]; [| discriminate].
    cbn [rbind]. intros [= <-].
    rewrite (decode_encode_char c bs rest Hc), (IH rest eq_refl).
    reflexivity.
Qed.

Lemma encode_char_1 (b0 : N) :
  b0 < 128 -> encode_char b0 = Ok [n2b b0].
Proof.
  intros H. unfold encode_char.
  replace (b0 <? 128) with true by (symmetry; apply N.ltb_lt; lia).
  reflexivity.
Qed.

Lemma encode_char_2 (b0 b1 : N) :
  between 194 223 b0 = true -> is_cont b1 = true ->
  encode_char ((b0 - 192) * 64 + low6 b1) = Ok [n2b b0; n2b b1].
Proof.
  intros H0 H1. apply between_true in H0. apply between_true in H1.
  unfold encode_char, low6.
  set (c := (b0 - 192) * 64 + (b1 - 128)).
  assert (Hc : 128 <= c < 2048) by (subst c; lia).
  replace (c <? 128) with false by (symmetry; apply N.ltb_ge; lia).
  replace (c <? 2048) with true by (symmetry; apply N.ltb_lt; lia).
  replace (192 + c / 64) with b0 by (subst c; div_lia).
  replace (128 + c mod 64) with b1 by (subst c; div_lia).
  reflexivity.
Qed.

Lemma encode_char_3 (b0 b1 b2 : N) :
  between 224 239 b0 = true ->
  (if b0 =? 224 then between 160 191 b1
   else if b0 =? 237 then between 128 159 b1
   else is_cont b1) = true ->
  is_cont b2 = true ->
  encode_char ((b0 - 224) * 4096 + low6 b1 * 64 + low6 b2)
  = Ok [n2b b0; n2b b1; n2b b2].
Proof.
  intros H0 H1 H2. apply between_true in H0. apply between_true in H2.
  assert (H1' : 128 <= b1 <= 191
                /\ (b0 = 224 -> 160 <= b1) /\ (b0 = 237 -> b1 <= 159)).
  { destruct (N.eqb_spec b0 224); [apply between_true in H1; lia |].
    destruct (N.eqb_spec b0 237); apply between_true in H1; lia. }
  clear H1. unfold encode_char, low6.
  set (c := (b0 - 224) * 4096 + (b1 - 128) * 64 + (b2 - 128)).
  assert (Hc : 2048 <= c < 65536 /\ (c < 55296 \/ 57343 < c))
    by (subst c; lia).
  replace (c <? 128) with false by (symmetry; apply N.ltb_ge; lia).
  replace (c <? 2048) with false by (symmetry; apply N.ltb_ge; lia).
  replace (c <? 65536) with true by (symmetry; apply N.ltb_lt; lia).
  replace (between 55296 57343 c) with false
    by (symmetry; apply between_false; lia).
  replace (224 + c / 4096) with b0 by (subst c; div_lia).
  replace (128 + (c / 64) mod 64) with b1 by (subst c; div_lia).
  replace (128 + c mod 64) with b2 by (subst c; div_lia).
  reflexivity.
Qed.

Lemma encode_char_4 (b0 b1 b2 b3 : N) :
  between 240 244 b0 = true ->
  (if b0 =? 240 then between 144 191 b1
   else if b0 =? 244 then between 128 143 b1
   else is_cont b1) = true ->
  is_cont b2 = true -> is_cont b3 = true ->
  encode_char ((b0 - 240) * 262144 + low6 b1 * 4096
               + low6 b2 * 64 + low6 b3)
  = Ok [n2b b0; n2b b1; n2b b2; n2b b3].
Proof.
  intros H0 H1 H2 H3.
  apply between_true in H0. apply between_true in H2.
  apply between_true in H3.
  assert (H1' : 128 <= b1 <= 191
                /\ (b0 = 240 -> 144 <= b1) /\ (b0 = 244 -> b1 <= 143)).
  { destruct (N.eqb_spec b0 240); [apply between_true in H1; lia |].
    destruct (N.eqb_spec b0 244); apply between_true in H1; lia. }
  clear H1. unfold encode_char, low6.
  set (c := (b0 - 240) * 262144 + (b1 - 128) * 4096
            + (b2 - 128) * 64 + (b3 - 128)).
  assert (Hc : 65536 <= c < 1114112) by (subst c; lia).
  replace (c <? 128) with false by (symmetry; apply N.ltb_ge; lia).
  replace (c <? 2048) with false by (symmetry; apply N.ltb_ge; lia).
  replace (c <? 65536) with false by (symmetry; apply N.ltb_ge; lia).
  replace (c <? 1114112) with true by (symmetry; apply N.ltb_lt; lia).
  replace (240 + c / 262144) with b0 by (subst c; div_lia).
  replace (128 + (c / 4096) mod 64) with b1 by (subst c; div_lia).
  replace (128 + (c / 64) mod 64) with b2 by (subst c; div_lia).
  replace (128 + c mod 64) with b3 by (subst c; div_lia).
  reflexivity.
Qed.

(** X13: a buffer that [decode("utf-8")] accepts is the encoding of the
    text it gives: no two buffers decode to the same text, and the text of
    a received line encodes back to the bytes received. *)
Theorem encode_decode_utf8 (data : bytes) (s : str) :
  decode_utf8 data = Ok s -> encode_utf8 s = Ok data.
Proof.
  remember (List.length data) as n eqn:Hn.
  assert (Hle : (List.length data <= n)%nat) by lia. clear Hn.
  revert data Hle s.
  induction n as [| n IH]; intros data Hle s.
  - destruct data; [| cbn in Hle; lia]. intros H. apply ok_eq in H.
    subst s. reflexivity.
  - destruct data as [| x0 r0].
    { intros H. apply ok_eq in H. subst s. reflexivity. }
    cbn [List.length] in Hle.
    assert (Hk : forall (r : bytes) (c : N) (bs : bytes),
               (List.length r <= n)%nat ->
               encode_char c = Ok bs ->
               rbind (decode_utf8 r) (fun t => Ok (c :: t)) = Ok s ->
               encode_utf8 s = Ok (bs ++ r)).
    { intros r c bs Hr Hc H. apply rbind_ok in H.
      destruct H as [t [Ht Hs]]. apply ok_eq in Hs. subst s.
      cbn [encode_utf8]. rewrite Hc, (IH r Hr t Ht). reflexivity. }
    cbn [decode_utf8]. cbv zeta.
    destruct (N.ltb_spec (b2n x0) 128) as [H0 | H0].
    { intros H.
      rewrite (Hk r0 _ [n2b (b2n x0)] ltac:(lia) (encode_char_1 _ H0) H).
      rewrite n2b_b2n. reflexivity. }
    destruct (between 194 223 (b2n x0)) eqn:H2.
    { destruct r0 as [| x1 r1]; [discriminate |].
      destruct (is_cont (b2n x1)) eqn:Hc1; [| discriminate].
      cbn [List.length] in Hle. intros H.
      rewrite (Hk r1 _ _ ltac:(lia) (encode_char_2 _ _ H2 Hc1) H).
      rewrite !n2b_b2n. reflexivity. }
    destruct (between 224 239 (b2n x0)) eqn:H3.
    { destruct r0 as [| x1 [| x2 r2]]; try discriminate.
      match goal with
      | |- (if ?c && _ then _ else _) = _ -> _ =>
        destruct c eqn:Hc1; [| discriminate]
      end.
      destruct (is_cont (b2n x2)) eqn:Hc2; [| discriminate].
      cbn [andb List.length] in *. intros H.
      rewrite (Hk r2 _ _ ltac:(lia) (encode_char_3 _ _ _ H3 Hc1 Hc2) H).
      rewrite !n2b_b2n. reflexivity. }
    destruct (between 240 244 (b2n x0)) eqn:H4; [| discriminate].
    destruct r0 as [| x1 [| x2 [| x3 r3]]]; try discriminate.
    match goal with
    | |- (if ?c && _ && _ then _ else _) = _ -> _ =>
      destruct c eqn:Hc1; [| discriminate]
    end.
    destruct (is_cont (b2n x2)) eqn:Hc2; [| discriminate].
    destruct (is_cont (b2n x3)) eqn:Hc3; [| discriminate].
    cbn [andb List.length] in *. intros H.
    rewrite (Hk r3 _ _ ltac:(lia) (encode_char_4 _ _ _ _ H4 Hc1 Hc2 Hc3) H).
    rewrite !n2b_b2n. reflexivity.
Qed.
End Utf8.

(** ** What is, and what is not, the command [STATUS] *)

Section Token.
Context {rt : Runtime} {W : Type} {host : Host W}.
Local Open Scope N_scope.

Lemma lstrip_split (s : str) :
  exists pre,
    s = pre ++ lstrip s /\ Forall (fun c => is_whitespace c = true) pre.
Proof.
  induction s as [| c r [pre [Hs Hpre]]].
  - exists []. split; [reflexivity | constructor].
  - cbn [lstrip]. destruct (is_whitespace c) eqn:Hc.
    + exists (c :: pre). split; [cbn; congruence | constructor; assumption].
    + exists []. split; [reflexivity | constructor].
Qed.

Lemma rstrip_split (s : str) :
  exists post,
    s = rstrip s ++ post /\ Forall (fun c => is_whitespace c = true) post.
Proof.
  unfold rstrip. destruct (lstrip_split (rev s)) as [pre [Hs Hpre]].
  exists (rev pre). split.
  - rewrite <- rev_app_distr, <- Hs, rev_involutive. reflexivity.
  - apply Forall_rev. exact Hpre.
Qed.

(** [strip] cuts whitespace, and nothing else, off the two ends. *)
Lemma strip_split (s : str) :
  exists pre post,
    s = pre ++ strip s ++ post
    /\ Forall (fun c => is_whitespace c = true) pre
    /\ Forall (fun c => is_whitespace c = true) post.
Proof.
  destruct (lstrip_split s) as [pre [Hs Hpre]].
  destruct (rstrip_split (lstrip s)) as [post [Hl Hpost]].
  exists pre, post. unfold strip. rewrite <- Hl. auto.
Qed.

Lemma lstrip_spaces (s : str) :
  forallb is_whitespace s = true -> lstrip s = [].
Proof.
  induction s as [| c r IH]; [reflexivity |].
  cbn [forallb lstrip]. intros H. apply andb_true_iff in H.
  destruct H as [Hc Hr]. rewrite Hc. auto.
Qed.

(** X14: a buffer that decodes to nothing but whitespace (ASCII or not) is
    answered [ERR Unknown Command], and costs no upstream call. *)
Theorem whitespace_only_is_unknown (data : bytes) (text : str) (w : W) :
  decode_utf8 data = Ok text ->
  forallb is_whitespace text = true ->
  respond data w = (Ok (line "ERR Unknown Command"), w).
Proof.
  intros Hd Hws. apply (respond_unknown data []); [| discriminate].
  unfold command_of. rewrite Hd. cbn [rbind]. unfold strip.
  rewrite (lstrip_spaces text Hws). reflexivity.
Qed.

Lemma upper_ascii (s : str) :
  Forall (fun c => c < 128) s ->
  upper s = map (fun c => if between 97 122 c then c - 32 else c) s.
Proof.
  induction 1 as [| c r Hc _ IH]; [reflexivity |].
  unfold upper in *. cbn [flat_map map]. rewrite IH. unfold upper_char.
  apply N.ltb_lt in Hc. rewrite Hc. reflexivity.
Qed.

Lemma ascii_whitespace_byte (x : byte) :
  b2n x < 128 -> is_whitespace (b2n x) = true -> Spec.ascii_space x = true.
Proof.
  intros Hx. unfold is_whitespace, Spec.ascii_space.
  repeat match goal with
         | |- context [?c =? ?k] =>
           replace (c =? k) with false by (symmetry; apply N.eqb_neq; lia)
         end.
  replace (between 8192 8202 (b2n x)) with false.
  - rewrite !orb_false_r. auto.
  - symmetry. unfold between. apply andb_false_iff. left.
    apply N.leb_gt. lia.
Qed.

Lemma ascii_whitespace_bytes (pad : bytes) :
  Forall (fun x => b2n x < 128) pad ->
  Forall (fun c => is_whitespace c = true) (map b2n pad) ->
  forallb Spec.ascii_space pad = true.
Proof.
  induction pad as [| x r IH]; [reflexivity |].
  cbn [map forallb]. intros Ha Hw.
  inversion Ha; subst. inversion Hw; subst.
  rewrite ascii_whitespace_byte by assumption. cbn [andb]. auto.
Qed.

Lemma upper_letter (c u : N) :
  65 <= u <= 90 ->
  (if between 97 122 c then c - 32 else c) = u ->
  c = u \/ c = u + 32.
Proof.
  intros Hu. destruct (between 97 122 c) eqn:Hc.
  - apply andb_true_iff in Hc. rewrite !N.leb_le in Hc. lia.
  - auto.
Qed.

(** X15: for a buffer of ASCII bytes the converse of the casing property
    holds: the command is [STATUS] only if the buffer is the word [status],
    each letter in either case, with nothing but ASCII whitespace before
    and after it. *)
Theorem ascii_status_only_from_casing (data : bytes) :
  Forall (fun x => b2n x < 128) data ->
  command_of data = Ok (lit "STATUS") ->
  exists pre word post,
    data = pre ++ word ++ post
    /\ forallb Spec.ascii_space pre = true
    /\ forallb Spec.ascii_space post = true
    /\ Spec.casing_of_status word.
Proof.
  intros Hascii Hcmd. unfold command_of in Hcmd.
  rewrite (decode_utf8_ascii data Hascii) in Hcmd. cbn [rbind] in Hcmd.
  apply ok_eq in Hcmd.
  destruct (strip_split (map b2n data)) as [tpre [tpost [Hs [Hpre Hpost]]]].
  apply map_eq_app in Hs. destruct Hs as [pre [more [-> [Hmpre Hs]]]].
  apply map_eq_app in Hs. destruct Hs as [word [post [-> [Hword Hmpost]]]].
  apply Forall_app in Hascii. destruct Hascii as [Apre Hascii].
  apply Forall_app in Hascii. destruct Hascii as [Aword Apost].
  exists pre, word, post. split; [reflexivity |].
  rewrite <- Hmpre in Hpre. rewrite <- Hmpost in Hpost.
  split; [exact (ascii_whitespace_bytes pre Apre Hpre) |].
  split; [exact (ascii_whitespace_bytes post Apost Hpost) |].
  rewrite <- Hword in Hcmd. rewrite upper_ascii in Hcmd.
  2:{ apply Forall_forall. intros c Hc. apply in_map_iff in Hc.
      destruct Hc as [x [<- Hx]].
      exact (proj1 (Forall_forall _ _) Aword x Hx). }
  rewrite map_map in Hcmd.
  unfold Spec.casing_of_status.
  change (lit "STATUS") with [83; 84; 65; 84; 85; 83] in *.
  clear - Hcmd.
  destruct word as [| x1 [| x2 [| x3 [| x4 [| x5 [| x6 [| x7 r]]]]]]];
    try discriminate.
  cbn [map] in Hcmd.
  assert (H1 := f_equal (fun l => nth 0 l 0) Hcmd).
  assert (H2 := f_equal (fun l => nth 1 l 0) Hcmd).
  assert (H3 := f_equal (fun l => nth 2 l 0) Hcmd).
  assert (H4 := f_equal (fun l => nth 3 l 0) Hcmd).
  assert (H5 := f_equal (fun l => nth 4 l 0) Hcmd).
  assert (H6 := f_equal (fun l => nth 5 l 0) Hcmd).
  cbn [nth] in H1, H2, H3, H4, H5, H6.
  repeat (apply Forall2_cons; [apply upper_letter; [lia | assumption] |]).
  apply Forall2_nil.
Qed.
End Token.

(** * The dataset scripts *)

Import Dataset.

(** ** Detecting the columns *)

Section Detection.
Context {cf : Casefold}.

Lemma str_eqb_refl (s : str) : str_eqb s s = true.
Proof. apply str_eqb_eq. reflexivity. Qed.

Lemma has_key_in (field : str) (row : sample) :
  has_key field row = true <-> exists v, In (field, v) row.
Proof.
  unfold has_key. rewrite existsb_exists. split.
  - intros [[k v] [Hin Hk]]. cbn [fst] in Hk. apply str_eqb_eq in Hk.
    subst k. eauto.
  - intros [v Hin]. exists (field, v). split; [exact Hin |].
    apply str_eqb_refl.
Qed.

Lemma has_key_perm (field : str) (row row' : sample) :
  Permutation row row' -> has_key field row = has_key field row'.
Proof.
  intros Hp.
  destruct (has_key field row) eqn:H1, (has_key field row') eqn:H2;
    try reflexivity.
  - apply has_key_in in H1. destruct H1 as [v Hin].
    assert (H : has_key field row' = true).
    { apply has_key_in. exists v. exact (Permutation_in _ Hp Hin). }
    congruence.
  - apply has_key_in in H2. destruct H2 as [v Hin].
    assert (H : has_key field row = true).
    { apply has_key_in. exists v.
      exact (Permutation_in _ (Permutation_sym Hp) Hin). }
    congruence.
Qed.

Lemma find_ext {A} (p q : A -> bool) (l : list A) :
  (forall x, In x l -> p x = q x) -> find p l = find q l.
Proof.
  induction l as [| a l IH]; intros H; [reflexivity |].
  cbn [find]. rewrite (H a (or_introl eq_refl)).
  destruct (q a); [reflexivity |]. apply IH. intros x Hx. apply H.
  right. exact Hx.
Qed.

(** The first element that passes, and those before it that do not. *)
Lemma find_first {A} (p : A -> bool) (l : list A) (x : A) :
  find p l = Some x ->
  exists before after,
    l = before ++ x :: after
    /\ p x = true /\ Forall (fun y => p y = false) before.
Proof.
  induction l as [| a l IH]; [discriminate |].
  cbn [find]. destruct (p a) eqn:Ha.
  - intros [= <-]. exists [], l. auto.
  - intros H. destruct (IH H) as [before [after [-> [Hx Hb]]]].
    exists (a :: before), after. auto.
Qed.

Lemma find_none_all {A} (p : A -> bool) (l : list A) :
  find p l = None <-> Forall (fun y => p y = false) l.
Proof.
  induction l as [| a l IH]; cbn [find].
  - split; [constructor | reflexivity].
  - destruct (p a) eqn:Ha; split.
    + discriminate.
    + intros H. inversion H; congruence.
    + intros H. constructor; [exact Ha | apply IH; exact H].
    + intros H. inversion H; subst. apply IH. assumption.
Qed.

(** X16: [detect_caption_field] goes by its own fixed order of names, not
    by the order of the columns: it returns the first of [caption],
    [text], [description], [prompt], [title], [label] that is a column of
    the row, [None] exactly when none of them is, and the same answer for
    the same columns in any other order. *)
Theorem detect_caption_field_by_priority (row : sample) :
  match detect_caption_field row with
  | Some field =>
    has_key field row = true
    /\ exists before after,
         caption_fields = before ++ field :: after
         /\ Forall (fun other => has_key other row = false) before
  | None => Forall (fun other => has_key other row = false) caption_fields
  end
  /\ forall row',
       Permutation row row' ->
       detect_caption_field row' = detect_caption_field row.
Proof.
  split.
  - unfold detect_caption_field.
    destruct (find (fun field => has_key field row) caption_fields)
      as [field |] eqn:Hfind.
    + destruct (find_first _ _ _ Hfind) as [before [after [Hl [Hk Hb]]]].
      split; [exact Hk |]. exists before, after. auto.
    + apply find_none_all. exact Hfind.
  - intros row' Hp. unfold detect_caption_field. apply find_ext.
    intros field _. symmetry. apply has_key_perm. exact Hp.
Qed.

(** X17: when the row has a column called [video], [video_file],
    [video_path], [mp4], [movie] or [clip], [detect_video_field] returns
    the first of these names that is a column, whatever the values of the
    row hold and whatever the order of its columns. *)
Theorem detect_video_field_by_name
    (row : sample) (before after : list str) (field : str) :
  video_fields = before ++ field :: after ->
  Forall (fun other => has_key other row = false) before ->
  has_key field row = true ->
  detect_video_field row = Some field
  /\ forall row',
       Permutation row row' -> detect_video_field row' = Some field.
Proof.
  intros Hl Hb Hk.
  assert (Hfind : forall row',
             Permutation row row' ->
             find (fun f => has_key f row') video_fields = Some field).
  { intros row' Hp. rewrite Hl. clear Hl.
    induction Hb as [| other rest Ho _ IH]; cbn [app find].
    - rewrite <- (has_key_perm field row row' Hp), Hk. reflexivity.
    - rewrite <- (has_key_perm other row row' Hp), Ho. exact IH. }
  split.
  - unfold detect_video_field. rewrite (Hfind row (Permutation_refl _)).
    reflexivity.
  - intros row' Hp. unfold detect_video_field. rewrite (Hfind row' Hp).
    reflexivity.
Qed.


(** X18: whatever [detect_video_field] returns is a column of the row, so
    indexing the row with it cannot fail; it returns [None] exactly when
    none of the six names is a column and no value is a string, or an
    object with a path, whose lower-cased text has [.mp4], [.avi], [.mov]
    or [.mkv] in it. *)
Theorem detect_video_field_is_a_column (row : sample) :
  (forall field,
      detect_video_field row = Some field -> has_key field row = true)
  /\ (detect_video_field row = None <->
      Forall (fun name => has_key name row = false) video_fields
      /\ Forall (fun kv => looks_like_video (snd kv) = false) row).
Proof.
  unfold detect_video_field.
  destruct (find (fun f => has_key f row) video_fields) as [name |] eqn:Hn.
  - split.
    + intros field [= <-]. exact (proj2 (find_some _ _ Hn)).
    + split; [discriminate |]. intros [Hall _].
      apply find_none_all in Hall. congruence.
  - apply find_none_all in Hn.
    destruct (find (fun kv => looks_like_video (snd kv)) row)
      as [[key v] |] eqn:Hv.
    + split.
      * intros field [= <-]. apply has_key_in. exists v.
        exact (proj1 (find_some _ _ Hv)).
      * split; [discriminate |]. intros [_ Hall].
        apply find_none_all in Hall. congruence.
    + split; [discriminate |]. split; [| reflexivity].
      intros _. split; [exact Hn |]. apply find_none_all. exact Hv.
Qed.

Lemma video_fields_mentioned (name : str) :
  In name video_fields -> key_mentions video_keywords name = true.
Proof.
  intros H. repeat (destruct H as [<- | H]; [reflexivity |]). destruct H.
Qed.

Lemma caption_fields_mentioned (name : str) :
  In name caption_fields -> key_mentions caption_keywords name = true.
Proof.
  intros H. repeat (destruct H as [<- | H]; [reflexivity |]). destruct H.
Qed.

(** X19: the analysis script lists every column the extraction would
    pick: what [detect_video_field] returns is among the video candidates
    it prints, and what [detect_caption_field] returns is among the
    caption candidates. *)
Theorem detected_fields_are_candidates (row : sample) (field : str) :
  (detect_video_field row = Some field -> In field (video_candidates row))
  /\ (detect_caption_field row = Some field ->
      In field (caption_candidates row)).
Proof.
  split.
  - unfold detect_video_field, video_candidates.
    destruct (find (fun f => has_key f row) video_fields) as [name |] eqn:Hn.
    + intros [= <-]. destruct (find_some _ _ Hn) as [Hin Hk].
      apply has_key_in in Hk. destruct Hk as [v Hv].
      apply in_map_iff. exists (name, v). split; [reflexivity |].
      apply filter_In. split; [exact Hv |]. cbn [fst snd].
      rewrite (video_fields_mentioned name Hin). reflexivity.
    + destruct (find (fun kv => looks_like_video (snd kv)) row)
        as [[key v] |] eqn:Hv; [| discriminate].
      intros [= <-]. destruct (find_some _ _ Hv) as [Hin Hlooks].
      apply in_map_iff. exists (key, v). split; [reflexivity |].
      apply filter_In. split; [exact Hin |]. cbn [fst snd] in *.
      rewrite Hlooks. apply orb_true_r.
  - unfold detect_caption_field, caption_candidates. intros Hfind.
    destruct (find_some _ _ Hfind) as [Hin Hk].
    apply has_key_in in Hk. destruct Hk as [v Hv].
    apply in_map_iff. exists (field, v). split; [reflexivity |].
    apply filter_In. split; [exact Hv |]. cbn [fst].
    exact (caption_fields_mentioned field Hin).
Qed.
End Detection.

(** ** Writing one video out *)

Section Extraction.
Context {W : Type} {files : Files W}.

Lemma catch_false (c : M W returned) (w : W) :
  exists r w', catch c (fun _ => ret RFalse) w = (Ok r, w').
Proof.
  unfold catch, ret. destruct (c w) as [[r | e] w']; eauto.
Qed.

Ltac settle :=
  eexists; eexists; split;
  [reflexivity
  | let Ht := fresh "Ht" in
    intros Ht; first [discriminate Ht | cbn; eauto 8]].

(** X20: [extract_video_file] raises nothing, whatever the file system
    does: it returns, and what it returns counts as true only when the
    copy or the write it attempted went through. *)
Theorem extract_video_file_returns
    (video_data : value) (output_path : str) (w : W) :
  exists r w',
    extract_video_file video_data output_path w = (Ok r, w')
    /\ (truthy r = true ->
        match video_data with
        | VStr s =>
          fst (path_exists s w) = true
          /\ copy2 s output_path (snd (path_exists s w)) = (Ok tt, w')
        | VObj (Some p) _ _ => copy2 p output_path w = (Ok tt, w')
        | VObj None (Some reading) _ =>
          exists data w1,
            open_wb output_path w = (Ok tt, w1)
            /\ reading = Ok data
            /\ write output_path data w1 = (Ok tt, w')
        | VBytes b =>
          exists w1,
            open_wb output_path w = (Ok tt, w1)
            /\ write output_path b w1 = (Ok tt, w')
        | VObj None None _ => False
        end).
Proof.
  unfold extract_video_file, catch, bind, ret, lift.
  destruct video_data as [s | b | [p |] [reading |] shown].
  - destruct (path_exists s w) as [[|] w1] eqn:E1; cbn [fst snd].
    + destruct (copy2 s output_path w1) as [[[] | e] w2] eqn:E2; settle.
    + settle.
  - destruct (open_wb output_path w) as [[[] | e] w1] eqn:E3; [| settle].
    destruct (write output_path b w1) as [[[] | e] w2] eqn:E4; settle.
  - destruct (copy2 p output_path w) as [[[] | e] w1] eqn:E5; settle.
  - destruct (copy2 p output_path w) as [[[] | e] w1] eqn:E6; settle.
  - destruct (open_wb output_path w) as [[[] | e] w1] eqn:E7; [| settle].
    destruct reading as [data | e]; [| settle].
    destruct (write output_path data w1) as [[[] | e] w2] eqn:E8; settle.
  - settle.
Qed.

(** X21: the ways [extract_video_file] fails.  A string that names no
    existing file makes it return [None], not [False], and nothing is
    copied; a value of a kind it does not know makes it return [False]
    without touching the file system; and when the [read] of a file-like
    object raises, it returns [False] after the output file has been
    opened for writing, so that an empty file is left behind. *)
Theorem extract_video_file_failures (output_path : str) (w : W) :
  (forall s w1,
      path_exists s w = (false, w1) ->
      extract_video_file (VStr s) output_path w = (Ok RNone, w1))
  /\ (forall shown,
         extract_video_file (VObj None None shown) output_path w
         = (Ok RFalse, w))
  /\ (forall e shown w1,
         open_wb output_path w = (Ok tt, w1) ->
         extract_video_file (VObj None (Some (Raise e)) shown) output_path w
         = (Ok RFalse, w1)).
Proof.
  unfold extract_video_file, catch, bind, ret, lift.
  split; [| split].
  - intros s w1 H. rewrite H. reflexivity.
  - reflexivity.
  - intros e shown w1 H. rewrite H. reflexivity.
Qed.
End Extraction.

(** ** How many rows, and under which names *)

Section Naming.
Local Open Scope N_scope.

(** X22: the number of rows extracted is never more than the dataset
    has.  A limit of 0 is taken for no limit at all, and every row is
    extracted; a negative limit extracts none; a positive one extracts
    the smaller of the limit and the size. *)
Theorem samples_to_process_limit (len : Z) (max_samples : option Z) :
  (0 <= len)%Z ->
  (List.length (range (samples_to_process len max_samples))
   <= Z.to_nat len)%nat
  /\ samples_to_process len None = len
  /\ samples_to_process len (Some 0%Z) = len
  /\ (forall m, (m < 0)%Z -> range (samples_to_process len (Some m)) = [])
  /\ (forall m, (0 < m)%Z ->
        samples_to_process len (Some m) = Z.min len m).
Proof.
  intros Hlen. split; [| split; [| split; [| split]]].
  - unfold range. rewrite length_map, length_seq.
    unfold samples_to_process. destruct max_samples as [m |]; [| lia].
    destruct (Z.eqb_spec m 0); lia.
  - reflexivity.
  - reflexivity.
  - intros m Hm. unfold samples_to_process, range.
    destruct (Z.eqb_spec m 0); [lia |].
    replace (Z.to_nat (Z.min len m)) with 0%nat by lia. reflexivity.
  - intros m Hm. unfold samples_to_process.
    destruct (Z.eqb_spec m 0); [lia | reflexivity].
Qed.

Lemma undigits_digits (d : Decimal.uint) : undigits (digits d) = d.
Proof. induction d; cbn; congruence. Qed.

Lemma of_uint_zeros (k : nat) (s : str) :
  N.of_uint (undigits (repeat 48 k ++ s)) = N.of_uint (undigits s).
Proof. induction k as [| k IH]; [reflexivity | exact IH]. Qed.

Lemma read_format_06d (idx : N) :
  N.of_uint (undigits (format_06d idx)) = idx.
Proof.
  unfold format_06d. cbv zeta.
  rewrite of_uint_zeros, undigits_digits. apply DecimalN.Unsigned.of_to.
Qed.

Lemma format_06d_inj (i j : N) : format_06d i = format_06d j -> i = j.
Proof.
  intros H. rewrite <- (read_format_06d i), <- (read_format_06d j), H.
  reflexivity.
Qed.

Lemma format_06d_width (idx : N) : (6 <= List.length (format_06d idx))%nat.
Proof.
  unfold format_06d. cbv zeta. rewrite length_app, repeat_length. lia.
Qed.

Lemma NoDup_map_injective {A B} (f : A -> B) (l : list A) :
  (forall a b, f a = f b -> a = b) -> NoDup l -> NoDup (map f l).
Proof.
  intros Hinj. induction 1 as [| a l Hnot _ IH]; cbn [map]; constructor.
  - intros Hin. apply in_map_iff in Hin. destruct Hin as [b [Hb Hin]].
    apply Hinj in Hb. subst b. contradiction.
  - exact IH.
Qed.

(** X23: two different indices never get the same file name, neither for
    the video nor for the caption, however large the index; so no row of
    a run overwrites the files of another.  The number part has at least
    six characters. *)
Theorem filenames_are_distinct (i j : N) :
  (video_filename i = video_filename j -> i = j)
  /\ (caption_filename i = caption_filename j -> i = j)
  /\ (forall n : Z, NoDup (map video_filename (range n)))
  /\ (6 <= List.length (format_06d i))%nat.
Proof.
  assert (Hv : forall a b, video_filename a = video_filename b -> a = b).
  { intros a b H. unfold video_filename in H.
    apply app_inv_head in H. apply app_inv_tail in H.
    exact (format_06d_inj a b H). }
  split; [apply Hv |]. split; [| split].
  - intros H. unfold caption_filename in H.
    apply app_inv_head in H. apply app_inv_tail in H.
    exact (format_06d_inj i j H).
  - intros n. unfold range. rewrite map_map.
    apply NoDup_map_injective; [| apply seq_NoDup].
    intros a b H. apply Hv in H. lia.
  - apply format_06d_width.
Qed.
End Naming.

(** ** The extraction run *)

Section ExtractionRun.
Context {cf : Casefold} {W : Type} {files : Files W}.

Lemma extract_video_file_total
    (video_data : value) (output_path : str) (w : W) :
  exists r w', extract_video_file video_data output_path w = (Ok r, w').
Proof. unfold extract_video_file. apply catch_false. Qed.



Lemma extract_rows_count
    (video_field : str) (caption_field : option str) (ov oc : str)
    (rows : list (result sample)) :
  forall (idx : N) (successful result : Z) (w w' : W),
    extract_rows video_field caption_field ov oc idx rows successful w
    = (Ok result, w') ->
    successful <= result <= successful + Z.of_nat (List.length rows).
Proof.
  induction rows as [| access later IH]; intros idx successful result w w'.
  - cbn [extract_rows]. unfold ret. intros [= <- _]. cbn. lia.
  - cbn [extract_rows]. unfold bind at 1. unfold lift at 1.
    destruct access as [row | e]; [| discriminate].
    unfold bind at 1. unfold lift at 1.
    destruct (getitem row video_field) as [video | e]; [| discriminate].
    unfold bind at 1.
    destruct (extract_video_file_total video
                (joinpath ov (video_filename idx)) w) as [r [w1 Hr]].
    rewrite Hr. destruct (truthy r).
    + unfold bind at 1. unfold lift at 1.
      destruct (caption_text caption_field row) as [text | e];
        [| discriminate].
      unfold bind at 1.
      destruct (write_text (joinpath oc (caption_filename idx)) text w1)
        as [[[] | e] w2]; [| discriminate].
      intros H. apply IH in H. cbn [List.length]. lia.
    + intros H. apply IH in H. cbn [List.length]. lia.
Qed.



(** X26: a run that gets to its last log line has written at most one
    video per row it went through, and went through no more rows than the
    dataset has; a run that stops early (the dataset did not load, is
    empty, or shows no video column in its first row) has touched no
    file. *)
Theorem extraction_report
    (loaded : result (list (result sample))) (ov oc : str)
    (max_samples : option Z) (w w' : W) (r : report) :
  extract_from_hf_dataset loaded ov oc max_samples w = (Ok r, w') ->
  match r with
  | Extracted successful total =>
    exists dataset,
      loaded = Ok dataset
      /\ total
         = samples_to_process (Z.of_nat (List.length dataset)) max_samples
      /\ 0 <= successful <= Z.max 0 total
      /\ successful <= Z.of_nat (List.length dataset)
  | _ => w' = w
  end.
Proof.
  unfold extract_from_hf_dataset.
  destruct loaded as [[| first_access others] | e].
  - unfold ret. intros [= <- <-]. reflexivity.
  - unfold bind at 1. unfold lift at 1.
    destruct first_access as [first | e]; [| discriminate].
    destruct (detect_video_field first) as [video_field |].
    + cbv zeta. unfold bind at 1.
      set (dataset := Ok first :: others).
      set (total := samples_to_process _ max_samples).
      destruct (extract_rows video_field (detect_caption_field first) ov oc
                  0%N (firstn (Z.to_nat total) dataset) 0 w)
        as [[successful | e] w1] eqn:Hrows; [| discriminate].
      unfold ret. intros [= <- <-].
      apply extract_rows_count in Hrows. rewrite length_firstn in Hrows.
      exists dataset. split; [reflexivity |]. split; [reflexivity |]. lia.
    + unfold ret. intros [= <- <-]. reflexivity.
  - unfold ret. intros [= <- <-]. reflexivity.
Qed.

End ExtractionRun.

(** * The wrapper script *)

Import Pipeline.

Section Wrapper.
Context {cf : Casefold}.
Local Open Scope N_scope.

Lemma replace_char_gone (old new : N) (s : str) :
  old <> new -> ~ In old (replace_char old new s).
Proof.
  intros Hne Hin. unfold replace_char in Hin. apply in_map_iff in Hin.
  destruct Hin as [c [Hc _]].
  destruct (N.eqb_spec c old); congruence.
Qed.

Lemma replace_char_keeps_out (old new x : N) (s : str) :
  x <> new -> ~ In x s -> ~ In x (replace_char old new s).
Proof.
  intros Hne Hout Hin. unfold replace_char in Hin. apply in_map_iff in Hin.
  destruct Hin as [c [Hc Hs]].
  destruct (N.eqb_spec c old); [congruence | subst; contradiction].
Qed.

Lemma replace_char_absent (old new : N) (s : str) :
  ~ In old s -> replace_char old new s = s.
Proof.
  induction s as [| c r IH]; [reflexivity |].
  intros Hout. cbn [replace_char map].
  destruct (N.eqb_spec c old) as [-> | _].
  - exfalso. apply Hout. left. reflexivity.
  - f_equal. apply IH. intros H. apply Hout. right. exact H.
Qed.

Lemma replace_char_present (old new : N) (s : str) :
  old <> new -> In old s -> replace_char old new s <> s.
Proof.
  intros Hne Hin Heq. apply (replace_char_gone old new s Hne).
  rewrite Heq. exact Hin.
Qed.

(** X24: the default output name has neither a slash nor a hyphen in it
    and is as long as the dataset name, so the default temporary directory
    is one directory directly under [/tmp].  The renaming loses
    information: a name with a slash or a hyphen in it shares its output
    name, and with it its temporary directory, with another name. *)
Theorem default_output_name_is_flat (dataset_name : str) :
  ~ In 47 (default_output_name dataset_name)
  /\ ~ In 45 (default_output_name dataset_name)
  /\ List.length (default_output_name dataset_name)
     = List.length dataset_name
  /\ (exists stem,
         default_temp_dir (default_output_name dataset_name)
         = lit "/tmp/" ++ stem
         /\ ~ In 47 stem)
  /\ (In 47 dataset_name \/ In 45 dataset_name ->
      default_output_name dataset_name <> dataset_name
      /\ default_output_name (default_output_name dataset_name)
         = default_output_name dataset_name).
Proof.
  assert (Hslash : ~ In 47 (default_output_name dataset_name)).
  { unfold default_output_name. apply replace_char_keeps_out; [lia |].
    apply replace_char_gone. lia. }
  assert (Hhyphen : ~ In 45 (default_output_name dataset_name)).
  { unfold default_output_name. apply replace_char_gone. lia. }
  split; [exact Hslash |]. split; [exact Hhyphen |]. split; [| split].
  - unfold default_output_name, replace_char. rewrite !length_map.
    reflexivity.
  - exists (lit "hallo3_processing_" ++ default_output_name dataset_name).
    split; [reflexivity |].
    intros Hin. apply in_app_or in Hin. destruct Hin as [Hin | Hin].
    + cbn in Hin. repeat (destruct Hin as [Hin | Hin]; [lia |]).
      exact Hin.
    + exact (Hslash Hin).
  - intros Hhas. split.
    + intros Heq. rewrite Heq in Hslash, Hhyphen. tauto.
    + unfold default_output_name at 1.
      rewrite (replace_char_absent 47 95 _ Hslash).
      apply replace_char_absent. exact Hhyphen.
Qed.

Lemma whitespace_range (c : N) :
  is_whitespace c = true -> c <= 32 \/ 133 <= c.
Proof.
  unfold is_whitespace, between.
  rewrite !orb_true_iff, !andb_true_iff, !N.leb_le, !N.eqb_eq. lia.
Qed.

Lemma ascii_lower_whitespace (c : N) :
  is_whitespace c = true -> ascii_lower c = c.
Proof.
  intros H. apply whitespace_range in H. unfold ascii_lower.
  destruct (between 65 90 c) eqn:Hc; [| reflexivity].
  apply between_true in Hc. lia.
Qed.

Lemma whitespace_after_lower (c : N) :
  is_whitespace (ascii_lower c) = true -> is_whitespace c = true.
Proof.
  unfold ascii_lower. destruct (between 65 90 c) eqn:Hc; [| auto].
  intros H. apply whitespace_range in H. apply between_true in Hc. lia.
Qed.

Lemma forallb_Forall_whitespace (s : str) :
  forallb is_whitespace s = true
  <-> Forall (fun c => is_whitespace c = true) s.
Proof. rewrite forallb_forall, Forall_forall. reflexivity. Qed.

(** X25: after a successful run the temporary files are kept only when
    the answer typed is the single letter [y] or [Y], with nothing but
    whitespace around it; any other ASCII answer, [yes] and the empty
    answer among them, has them removed. *)
Theorem removes_temp_unless_bare_y (answer : str) :
  is_ascii answer = true ->
  (removes_temp answer = false <->
   exists pre c post,
     answer = pre ++ c :: post
     /\ (c = 121 \/ c = 89)
     /\ forallb is_whitespace pre = true
     /\ forallb is_whitespace post = true).
Proof.
  intros Hascii. unfold removes_temp, lower. rewrite Hascii.
  rewrite negb_false_iff, str_eqb_eq.
  change (lit "y") with [121]. split.
  - intros Hy.
    destruct (strip_split (map ascii_lower answer))
      as [tpre [tpost [Hs [Hpre Hpost]]]].
    rewrite Hy in Hs.
    apply map_eq_app in Hs. destruct Hs as [pre [more [-> [Hmpre Hs]]]].
    apply map_eq_app in Hs. destruct Hs as [word [post [-> [Hword Hmpost]]]].
    destruct word as [| c [| c' word]]; try discriminate.
    cbn [map] in Hword. assert (Hc : ascii_lower c = 121) by congruence.
    exists pre, c, post. split; [reflexivity |]. split.
    { unfold ascii_lower in Hc. destruct (between 65 90 c); lia. }
    subst tpre tpost. split; apply forallb_forall; intros x Hx;
      apply whitespace_after_lower.
    + apply (proj1 (Forall_forall _ _) Hpre). apply in_map. exact Hx.
    + apply (proj1 (Forall_forall _ _) Hpost). apply in_map. exact Hx.
  - intros [pre [c [post [-> [Hc [Hpre Hpost]]]]]].
    apply forallb_Forall_whitespace in Hpre.
    apply forallb_Forall_whitespace in Hpost.
    rewrite map_app. cbn [map].
    assert (Hid : forall s,
               Forall (fun c => is_whitespace c = true) s ->
               map ascii_lower s = s).
    { induction 1 as [| x r Hx _ IH]; [reflexivity |].
      cbn [map]. rewrite (ascii_lower_whitespace x Hx), IH. reflexivity. }
    rewrite (Hid pre Hpre), (Hid post Hpost).
    replace (ascii_lower c) with 121
      by (destruct Hc as [-> | ->]; reflexivity).
    apply (strip_padded pre [121] post 121 121 [] [] Hpre Hpost);
      reflexivity.
Qed.
End Wrapper.

(** * Instances of the further properties *)

Import Ticking MemFiles Cases.

Lemma fetches_day_and_day_before_witness :
  check_recent_costs pop_result (popping [1; 2])
  = bind (catch (pop_result (date_of noon)) (fun _ => ret 0))
      (fun cost_today =>
       bind (catch (pop_result (date_of noon - 1)) (fun _ => ret 0))
         (fun cost_yesterday => ret (cost_today + cost_yesterday >? 0)))
      (popping [1; 2]).
Proof.
  apply (fetches_day_and_day_before pop_result
           (popping [1; 2]) (popping [1; 2]) (popping [1; 2]) noon noon);
    reflexivity.
Defined.

Lemma fetches_same_day_twice_across_midnight_witness :
  check_recent_costs fetch_usage (over_midnight [usage (PyInt 3)])
  = bind (catch (fetch_usage (date_of before_midnight)) (fun _ => ret 0))
      (fun cost_today =>
       bind (catch (fetch_usage (date_of before_midnight))
               (fun _ => ret 0))
         (fun cost_yesterday => ret (cost_today + cost_yesterday >? 0)))
      {| ticks := []; bodies := [usage (PyInt 3)] |}.
Proof.
  apply (fetches_same_day_twice_across_midnight fetch_usage
           (over_midnight [usage (PyInt 3)])
           {| ticks := [after_midnight]; bodies := [usage (PyInt 3)] |}
           {| ticks := []; bodies := [usage (PyInt 3)] |}
           before_midnight after_midnight);
    reflexivity.
Defined.

Lemma status_reply_on_integer_totals_witness :
  fst (respond (line "STATUS")
         (answering [usage (PyInt 5); usage (PyInt (-5))]))
  = Ok (line "FALSE").
Proof.
  apply (status_reply_on_integer_totals (line "STATUS")
           (answering [usage (PyInt 5); usage (PyInt (-5))]) 5 (-5)).
  - reflexivity.
  - exists [(lit "total_usage", PyInt 5)]. split; reflexivity.
  - exists [(lit "total_usage", PyInt (-5))]. split; reflexivity.
  - lia.
  - lia.
Defined.

Lemma status_false_when_both_queries_fail_witness :
  fst (respond (line "status") (answering [Raise OSError; Ok (PyList [])]))
  = Ok (line "FALSE").
Proof.
  rewrite (status_false_when_both_queries_fail (line "status")
             (answering [Raise OSError; Ok (PyList [])])
             OSError AttributeError);
    reflexivity.
Defined.

Lemma fetch_usage_zero_cases_witness :
  fst (fetch_usage 20396 (answering [usage PyNone])) = Ok 0.
Proof.
  apply (proj2 (proj2 (proj2
           (fetch_usage_zero_cases 20396 (answering [usage PyNone]))))
           [(lit "total_usage", PyNone)] PyNone).
  - reflexivity.
  - reflexivity.
  - exact I.
Defined.

Lemma line_in_pieces_is_reassembled_witness :
  read_loop (map Recv [ascii_bytes "STA"; line "TUS"] ++ [RecvError]) []
  = Ok (ascii_bytes "STATUS" ++ [x0a]).
Proof.
  apply (line_in_pieces_is_reassembled
           [ascii_bytes "STA"; line "TUS"] (ascii_bytes "STATUS")
           [RecvError]).
  - repeat constructor; discriminate.
  - reflexivity.
  - reflexivity.
Defined.

Lemma unterminated_line_witness :
  read_loop (map Recv [ascii_bytes "STATUS"]) []
  = Ok (List.concat [ascii_bytes "STATUS"])
  /\ read_loop (map Recv [ascii_bytes "STATUS"] ++ Recv [] :: []) []
     = Ok (List.concat [ascii_bytes "STATUS"])
  /\ read_loop (map Recv [ascii_bytes "STATUS"] ++ RecvError :: []) []
     = Raise OSError.
Proof.
  apply (unterminated_line [ascii_bytes "STATUS"] []).
  - repeat constructor; discriminate.
  - reflexivity.
Defined.

Lemma healthy_clients_are_all_served_witness :
  exists trace w',
    main true [client [line "STATUS"]; Accepted pinging] (answering [])
    = (trace, Listening, w')
    /\ List.length trace = 2%nat
    /\ Forall Traffic.reply_entry trace.
Proof.
  apply (healthy_clients_are_all_served
           [client [line "STATUS"]; Accepted pinging] (answering [])).
  repeat constructor.
  - exists (line "STATUS"), (lit "STATUS" ++ [10%N]).
    split; reflexivity.
  - exists (line "PING"), (lit "PING" ++ [10%N]). split; reflexivity.
Defined.

Lemma main_trace_shape_witness :
  exists served : list bytes,
    Forall (fun out => In out Spec.reply_lines) served
    /\ ([Some (line "ERR Unknown Command"); None] = map Some served
        \/ [Some (line "ERR Unknown Command"); None]
           = map Some served ++ [None])
    /\ ((List.length served < 3)%nat \/ true = false).
Proof.
  apply (main_trace_shape true
           [Accepted pinging; broken_client; Accepted pinging]
           (answering []) (answering [])
           [Some (line "ERR Unknown Command"); None] (Died OSError)).
  reflexivity.
Defined.

Lemma unknown_command_is_transparent_witness :
  serve pinging (answering [usage (PyInt 1)])
  = (Ok (line "ERR Unknown Command"), answering [usage (PyInt 1)])
  /\ accept_loop [Accepted pinging; client [line "STATUS"]]
       (answering [usage (PyInt 1)])
     = (let '(trace, fin, w') :=
          accept_loop [client [line "STATUS"]]
            (answering [usage (PyInt 1)]) in
        (Some (line "ERR Unknown Command") :: trace, fin, w')).
Proof.
  apply (unknown_command_is_transparent pinging [client [line "STATUS"]]
           (line "PING") (lit "PING") (answering [usage (PyInt 1)]));
    first [reflexivity | discriminate].
Defined.

Lemma decode_encode_utf8_witness :
  decode_utf8 [xe2; x82; xac; xf0; x9f; x98; x80]
  = Ok [8364%N; 128512%N].
Proof.
  apply (decode_encode_utf8 [8364%N; 128512%N]). reflexivity.
Defined.

Lemma encode_decode_utf8_witness :
  encode_utf8 [383%N; 116%N] = Ok [xc5; xbf; x74].
Proof.
  apply (encode_decode_utf8 [xc5; xbf; x74]). reflexivity.
Defined.

Lemma whitespace_only_is_unknown_witness :
  respond [x20; xc2; xa0; x0d; x0a] (answering [])
  = (Ok (line "ERR Unknown Command"), answering []).
Proof.
  apply (whitespace_only_is_unknown [x20; xc2; xa0; x0d; x0a]
           [32%N; 160%N; 13%N; 10%N] (answering []));
    reflexivity.
Defined.

Lemma ascii_status_only_from_casing_witness :
  exists pre word post,
    line " staTUS" = pre ++ word ++ post
    /\ forallb Spec.ascii_space pre = true
    /\ forallb Spec.ascii_space post = true
    /\ Spec.casing_of_status word.
Proof.
  apply (ascii_status_only_from_casing (line " staTUS")).
  - repeat constructor.
  - reflexivity.
Defined.

Lemma detect_caption_field_by_priority_witness :
  detect_caption_field
    [(lit "caption", VStr (lit "a cat")); (lit "title", VStr (lit "Cat"))]
  = detect_caption_field
      [(lit "title", VStr (lit "Cat")); (lit "caption", VStr (lit "a cat"))].
Proof.
  apply (proj2 (detect_caption_field_by_priority
                  [(lit "title", VStr (lit "Cat"));
                   (lit "caption", VStr (lit "a cat"))])).
  apply perm_swap.
Defined.

Lemma detect_video_field_by_name_witness :
  detect_video_field
    [(lit "file", VStr (lit "a.mp4")); (lit "clip", VBytes []);
     (lit "video_path", VStr (lit "a"))]
  = Some (lit "video_path").
Proof.
  refine (proj1 (detect_video_field_by_name
                   [(lit "file", VStr (lit "a.mp4")); (lit "clip", VBytes []);
                    (lit "video_path", VStr (lit "a"))]
                   [lit "video"; lit "video_file"]
                   [lit "mp4"; lit "movie"; lit "clip"] (lit "video_path")
                   _ _ _)).
  - reflexivity.
  - repeat constructor.
  - reflexivity.
Defined.

Lemma detect_video_field_is_a_column_witness :
  has_key (lit "file") hinting_row = true.
Proof.
  apply (proj1 (detect_video_field_is_a_column hinting_row) (lit "file")).
  reflexivity.
Defined.

Lemma detected_fields_are_candidates_witness :
  In (lit "file") (video_candidates hinting_row).
Proof.
  apply (proj1 (detected_fields_are_candidates hinting_row (lit "file"))).
  reflexivity.
Defined.

Lemma extract_video_file_returns_witness :
  exists r w',
    extract_video_file (VBytes [x00; x01]) (lit "out/video_000000.mp4") []
    = (Ok r, w')
    /\ (truthy r = true ->
        exists w1,
          open_wb (lit "out/video_000000.mp4") [] = (Ok tt, w1)
          /\ write (lit "out/video_000000.mp4") [x00; x01] w1 = (Ok tt, w')).
Proof.
  exact (extract_video_file_returns (VBytes [x00; x01])
           (lit "out/video_000000.mp4") []).
Defined.

Lemma extract_video_file_failures_witness :
  extract_video_file (VStr (lit "missing.mp4")) (lit "out.mp4") []
  = (Ok RNone, [])
  /\ extract_video_file
       (VObj None (Some (Raise OSError)) (Ok (lit "<stream>"))) (lit "out.mp4") []
     = (Ok RFalse, [(lit "out.mp4", [])]).
Proof.
  split.
  - apply (proj1 (extract_video_file_failures (lit "out.mp4") [])).
    reflexivity.
  - apply (proj2 (proj2 (extract_video_file_failures (lit "out.mp4") []))).
    reflexivity.
Defined.

Lemma samples_to_process_limit_witness :
  samples_to_process 10 (Some 0) = 10
  /\ range (samples_to_process 10 (Some (-1))) = [].
Proof.
  destruct (samples_to_process_limit 10 (Some 3) ltac:(lia))
    as [_ [_ [Hzero [Hneg _]]]].
  split; [exact Hzero | apply Hneg; lia].
Defined.

Lemma filenames_are_distinct_witness :
  video_filename 7 = lit "video_000007.mp4"
  /\ (video_filename 7 = video_filename 7 -> 7%N = 7%N).
Proof.
  split; [reflexivity |].
  exact (proj1 (filenames_are_distinct 7 7)).
Defined.

Lemma default_output_name_is_flat_witness :
  default_output_name (lit "user/data-set") <> lit "user/data-set"
  /\ default_output_name (default_output_name (lit "user/data-set"))
     = default_output_name (lit "user/data-set").
Proof.
  apply (proj2 (proj2 (proj2 (proj2
           (default_output_name_is_flat (lit "user/data-set")))))).
  left. cbn. auto 10.
Defined.

Lemma removes_temp_unless_bare_y_witness :
  removes_temp (lit " Y ") = false.
Proof.
  apply (proj2 (removes_temp_unless_bare_y (lit " Y ") eq_refl)).
  exists [32%N], 89%N, [32%N]. repeat split; auto.
Defined.

(** The answer [yes] is not [y]: the files go. *)
Example yes_removes_temp : removes_temp (lit "yes") = true.
Proof. reflexivity. Qed.

Lemma extraction_report_witness :
  exists dataset,
    Ok [Ok full_row; Ok bare_row] = Ok dataset
    /\ 1 = samples_to_process (Z.of_nat (List.length dataset)) (Some 1)
    /\ 0 <= 1 <= Z.max 0 1
    /\ 1 <= Z.of_nat (List.length dataset).
Proof.
  apply (extraction_report (Ok [Ok full_row; Ok bare_row])
           (lit "videos") (lit "captions") (Some 1) []
           (snd (extract_from_hf_dataset (Ok [Ok full_row; Ok bare_row])
                   (lit "videos") (lit "captions") (Some 1) []))
           (Extracted 1 1)).
  reflexivity.
Defined.


(** The analysis recommends the first candidate in column order, the
    extraction picks by its list of names: on this row the one recommends
    [clip] and the other uses [video]. *)
Example recommendation_may_differ :
  hd_error (video_candidates
              [(lit "clip", VBytes []); (lit "video", VBytes [])])
  = Some (lit "clip")
  /\ detect_video_field [(lit "clip", VBytes []); (lit "video", VBytes [])]
     = Some (lit "video").
Proof. split; reflexivity. Qed.
